(** * The pairwise combination risk engine of [frontend/app.py]

    A shallow embedding of [get_drug_side_effects], [create_feature_vector]
    and [predict_drug_combinations], of the part of [main] that selects the
    anchor and displays the ranking, and the properties of the ranking run.

    Modelling conventions:
    - a pandas data frame is the list of its rows, in row order; only the
      columns the engine reads are kept;
    - a Python [set] of labels is a [gset string];
    - a Python [float] is a [pyfloat]: an exact rational, an infinity or
      NaN, with the arithmetic and the comparisons of IEEE 754 on them;
      rounding, overflow and signed zeros are not modelled, and "equal" on
      finite scores is [Qeq]. The overlap risk, a quotient of two [int]s
      times 100, is always finite and is kept as a rational;
    - a Python exception is the [Raise] branch of the [result] monad, and is
      propagated exactly where the source has no handler. *)

From Stdlib Require Import QArith Lia Lqa Field.
From stdpp Require Import base list strings gmap sets sorting.

Local Open Scope string_scope.
Local Open Scope list_scope.
Local Open Scope nat_scope.

(** ** Exceptions and the error monad *)

Inductive exn : Type :=
  | IndexError          (* [.values[0]] on an empty selection, [fv[idx] = 1] out of range *)
  | ValueError          (* [list.index] of an absent element *)
  | ZeroDivisionError   (* [/] with a zero divisor *)
  | TypeError           (* [float] of a non-numeric object *)
  | ModelError (msg : string).  (* whatever [model.predict] raises *)

Inductive result (A : Type) : Type :=
  | Ok (a : A)
  | Raise (e : exn).
Arguments Ok {A} a.
Arguments Raise {A} e.

#[global] Instance result_ret : MRet result := λ A, Ok.

#[global] Instance result_bind : MBind result := λ A B k m,
  match m with
  | Ok a => k a
  | Raise e => Raise e
  end.

#[global] Instance exn_eq_dec : EqDecision exn.
Proof. solve_decision. Defined.

#[global] Instance result_eq_dec {A : Type} `{EqDecision A} :
  EqDecision (result A).
Proof. solve_decision. Defined.

Definition is_ok {A : Type} (m : result A) : Prop := ∃ a, m = Ok a.

(** ** Data model *)

(** A row of [side_effects_df]; the columns [side_effect_id], [meddra_type],
    [frequency] and [placebo_frequency] are never read by the engine. *)
Record side_effect_row : Type := {
  se_drug_id : string;
  side_effect_name : string
}.

(** A row of [drug_names_df]. *)
Record drug_name_row : Type := {
  dn_drug_id : string;
  drug_name : string
}.

(** A [float]: a finite value, [inf], [-inf] or [nan]. *)
Inductive pyfloat : Type :=
  | Finite (q : Q)
  | PosInf
  | NegInf
  | NaN.

(** What [model.predict(dmatrix)[0]] hands back, as [float()] sees it: an
    object it converts to the float [x] (a number, or a string that reads as
    one), an object it rejects with [TypeError], or a string it cannot read,
    rejected with [ValueError]. *)
Inductive prediction : Type :=
  | Numeric (x : pyfloat)
  | NonNumeric
  | Unparsable.

(** The booster, as the engine consumes it: one scoring call on the
    single-row matrix built from the feature vector. *)
Record booster : Type := {
  predict : list Q → result prediction
}.

Record label_encoder_t : Type := {
  classes_ : list string
}.

(** One dictionary appended to [combinations]. *)
Record combination : Type := {
  drug : string;
  risk_score : Q;
  severity_score : pyfloat;
  combined_score : pyfloat;
  common_side_effects : gset string
}.

(** ** Python and pandas primitives *)

(** [arr.values[0]] *)
Definition values_0 {A : Type} (l : list A) : result A :=
  match l with
  | [] => Raise IndexError
  | x :: _ => Ok x
  end.

(** [Series.unique().tolist()]: each value once, in order of first appearance. *)
Fixpoint unique_from (seen : list string) (l : list string) : list string :=
  match l with
  | [] => []
  | x :: l' =>
      if bool_decide (x ∈ seen) then unique_from seen l'
      else x :: unique_from (x :: seen) l'
  end.

Definition unique (l : list string) : list string := unique_from [] l.

(** [l.index(x)]: position of the first occurrence. *)
Fixpoint index (x : string) (l : list string) : result nat :=
  match l with
  | [] => Raise ValueError
  | y :: l' => if bool_decide (y = x) then Ok 0 else i ← index x l'; Ok (S i)
  end.

(** [arr[idx] = v] on a numpy array. *)
Definition setitem (arr : list Q) (idx : nat) (v : Q) : result (list Q) :=
  if bool_decide (idx < length arr) then Ok (<[idx := v]> arr)
  else Raise IndexError.

(** [a / b] on two [int]s (true division). *)
Definition int_truediv (a b : nat) : result Q :=
  if bool_decide (b = 0) then Raise ZeroDivisionError
  else Ok (inject_Z (Z.of_nat a) / inject_Z (Z.of_nat b))%Q.

(** [x + y] on floats. *)
Definition fadd (x y : pyfloat) : pyfloat :=
  match x, y with
  | NaN, _ | _, NaN => NaN
  | Finite a, Finite b => Finite (a + b)
  | PosInf, NegInf | NegInf, PosInf => NaN
  | PosInf, _ | _, PosInf => PosInf
  | NegInf, _ | _, NegInf => NegInf
  end.

(** The infinity with the sign of [a] times the sign of [positive]; [nan]
    for [a] zero. *)
Definition signed_inf (a : Q) (positive : bool) : pyfloat :=
  match (a ?= 0)%Q with
  | Gt => if positive then PosInf else NegInf
  | Lt => if positive then NegInf else PosInf
  | Eq => NaN
  end.

(** [x * y] on floats. *)
Definition fmul (x y : pyfloat) : pyfloat :=
  match x, y with
  | NaN, _ | _, NaN => NaN
  | Finite a, Finite b => Finite (a * b)
  | Finite a, PosInf | PosInf, Finite a => signed_inf a true
  | Finite a, NegInf | NegInf, Finite a => signed_inf a false
  | PosInf, PosInf | NegInf, NegInf => PosInf
  | PosInf, NegInf | NegInf, PosInf => NegInf
  end.

(** [x / n] with [x] a [float] and [n] an [int]. *)
Definition float_truediv (x : pyfloat) (n : nat) : result pyfloat :=
  if bool_decide (n = 0) then Raise ZeroDivisionError
  else Ok match x with
          | Finite q => Finite (q / inject_Z (Z.of_nat n))
          | PosInf => PosInf
          | NegInf => NegInf
          | NaN => NaN
          end.

(** [float(p)] *)
Definition float_ (p : prediction) : result pyfloat :=
  match p with
  | Numeric x => Ok x
  | NonNumeric => Raise TypeError
  | Unparsable => Raise ValueError
  end.

(** [a < b] on floats, the only comparison [sorted] makes: false as soon as
    one side is [nan]. *)
Definition float_lt (a b : pyfloat) : bool :=
  match a, b with
  | NaN, _ | _, NaN => false
  | Finite x, Finite y => negb (Qle_bool y x)
  | NegInf, NegInf | PosInf, _ | _, NegInf => false
  | NegInf, _ | _, PosInf => true
  end.

(** [a <= b] on floats. *)
Definition fle (a b : pyfloat) : Prop :=
  match a, b with
  | NaN, _ | _, NaN => False
  | Finite x, Finite y => (x <= y)%Q
  | NegInf, _ | _, PosInf => True
  | PosInf, _ | _, NegInf => False
  end.

(** [a == b] on floats: [nan] equals nothing, itself included. *)
Definition feq (a b : pyfloat) : Prop :=
  match a, b with
  | Finite x, Finite y => (x == y)%Q
  | PosInf, PosInf | NegInf, NegInf => True
  | _, _ => False
  end.

#[global] Instance Qeq_decision (a b : Q) : Decision (a == b)%Q := Qeq_dec a b.

#[global] Instance feq_decision (a b : pyfloat) : Decision (feq a b).
Proof. destruct a, b; simpl; apply _. Defined.

(** [before a b l]: [l] has an occurrence of [a] followed, later on, by an
    occurrence of [b]. *)
Definition before {A : Type} (a b : A) (l : list A) : Prop :=
  [a; b] `sublist_of` l.

(** [sorted(l, key=key)]: ascending and stable. Insertion from the right puts
    each element in front of the already sorted later elements, moving it only
    past those with a strictly smaller key. Without a [nan] key the keys are
    totally ordered and this is the one list a stable sort can return. With a
    [nan] key every comparison with it is false and the built-in promises no
    order; the order computed here is then the one of this insertion, and
    the failure of sortedness stated below holds of every arrangement of the
    elements. *)
Section Sorted.
Context {A : Type} (key : A → pyfloat).

Fixpoint insert_by (x : A) (l : list A) : list A :=
  match l with
  | [] => [x]
  | y :: l' =>
      if float_lt (key y) (key x) then y :: insert_by x l'
      else x :: y :: l'
  end.

Definition sorted (l : list A) : list A := foldr insert_by [] l.

(** The order [sorted] establishes. *)
Definition key_le (a b : A) : Prop := fle (key a) (key b).
End Sorted.

(** ** The engine *)

(** [get_drug_side_effects], lines 37-41. *)
Definition get_drug_side_effects (name : string)
    (side_effects_df : list side_effect_row)
    (drug_names_df : list drug_name_row) : result (list string) :=
  drug_id ← values_0
    (dn_drug_id <$> filter (λ r, drug_name r = name) drug_names_df);
  let drug_ses :=
    side_effect_name <$> filter (λ r, se_drug_id r = drug_id) side_effects_df in
  Ok drug_ses.

(** The body of the [for se in ...] loop of [create_feature_vector], run over
    the elements of the union in iteration order. *)
Fixpoint mark_slots (all_side_effects : list string) (ses : list string)
    (feature_vector : list Q) : result (list Q) :=
  match ses with
  | [] => Ok feature_vector
  | se :: rest =>
      if bool_decide (se ∈ all_side_effects) then
        idx ← index se all_side_effects;
        feature_vector' ← setitem feature_vector idx 1%Q;
        mark_slots all_side_effects rest feature_vector'
      else mark_slots all_side_effects rest feature_vector
  end.

(** [create_feature_vector], lines 43-50. *)
Definition create_feature_vector (drug1_ses drug2_ses : gset string)
    (all_side_effects : list string) : result (list Q) :=
  let feature_vector := replicate (length all_side_effects) 0%Q in
  mark_slots all_side_effects (elements (drug1_ses ∪ drug2_ses)) feature_vector.

(** Lines 70-71: the overlap risk of two profiles. *)
Definition overlap_risk (drug1_ses drug2_ses : gset string) : result Q :=
  let common_ses := drug1_ses ∩ drug2_ses in
  q ← int_truediv (size common_ses) (size drug1_ses + size drug2_ses);
  Ok (q * 100)%Q.

Section Engine.
Context (model : booster) (label_encoder : label_encoder_t).
Context (side_effects_df : list side_effect_row).
Context (drug_names_df : list drug_name_row).

(** Line 55. *)
Definition all_side_effects : list string :=
  unique (side_effect_name <$> side_effects_df).

(** Lines 61-62. *)
Definition available_drugs : list string :=
  unique (drug_name <$> drug_names_df).

Definition other_drugs (drug1 : string) : list string :=
  filter (λ d, d ≠ drug1) available_drugs.

(** Lines 67-90: the body of the loop over [other_drugs]. *)
Definition score_combination (drug1_ses : gset string) (drug2 : string)
    : result combination :=
  ses2 ← get_drug_side_effects drug2 side_effects_df drug_names_df;
  let drug2_ses : gset string := list_to_set ses2 in
  let common_ses := drug1_ses ∩ drug2_ses in
  risk ← overlap_risk drug1_ses drug2_ses;
  feature_vector ← create_feature_vector drug1_ses drug2_ses all_side_effects;
  p ← predict model feature_vector;
  x ← float_ p;
  s ← float_truediv x (length (classes_ label_encoder));
  let severity := fmul s (Finite 100) in
  let combined :=
    fadd (fmul (Finite 0.6) (Finite risk)) (fmul (Finite 0.4) severity) in
  Ok {| drug := drug2;
        risk_score := risk;
        severity_score := severity;
        combined_score := combined;
        common_side_effects := common_ses |}.

(** Lines 65-90: the loop, appending to [combinations]; the first exception
    leaves the loop and the function. *)
Fixpoint score_all (drug1_ses : gset string) (drugs : list string)
    (combinations : list combination) : result (list combination) :=
  match drugs with
  | [] => Ok combinations
  | drug2 :: rest =>
      c ← score_combination drug1_ses drug2;
      score_all drug1_ses rest (combinations ++ [c])
  end.

(** [predict_drug_combinations], lines 52-93. *)
Definition predict_drug_combinations (drug1 : string)
    : result (list combination) :=
  ses1 ← get_drug_side_effects drug1 side_effects_df drug_names_df;
  let drug1_ses : gset string := list_to_set ses1 in
  combinations ← score_all drug1_ses (other_drugs drug1) [];
  Ok (sorted combined_score combinations).
End Engine.

(** ** A small data set

    Three labels and six drug records. [DrugA] and [DrugB] share one label,
    [DrugC] and [DrugE] have no recorded side effect, [DrugD] has the profile
    of [DrugA], and [DrugB] is listed twice, under two identifiers. *)

Definition demo_side_effects_df : list side_effect_row := [
  {| se_drug_id := "CID1"; side_effect_name := "nausea" |};
  {| se_drug_id := "CID1"; side_effect_name := "rash" |};
  {| se_drug_id := "CID2"; side_effect_name := "nausea" |};
  {| se_drug_id := "CID2"; side_effect_name := "fatigue" |};
  {| se_drug_id := "CID2"; side_effect_name := "nausea" |};
  {| se_drug_id := "CID4"; side_effect_name := "rash" |};
  {| se_drug_id := "CID4"; side_effect_name := "nausea" |};
  {| se_drug_id := "CID6"; side_effect_name := "rash" |}
].

Definition demo_drug_names_df : list drug_name_row := [
  {| dn_drug_id := "CID1"; drug_name := "DrugA" |};
  {| dn_drug_id := "CID2"; drug_name := "DrugB" |};
  {| dn_drug_id := "CID3"; drug_name := "DrugC" |};
  {| dn_drug_id := "CID4"; drug_name := "DrugD" |};
  {| dn_drug_id := "CID6"; drug_name := "DrugB" |};
  {| dn_drug_id := "CID5"; drug_name := "DrugE" |}
].

(** A stub model that always predicts class 1, out of two classes. *)
Definition demo_model : booster :=
  {| predict := λ _, Ok (Numeric (Finite 1)) |}.

Definition demo_label_encoder : label_encoder_t :=
  {| classes_ := ["mild"; "severe"] |}.

(** The ranking of the candidates of [DrugA], and its record for [DrugB]. *)
Definition demo_ranking : list combination :=
  Eval vm_compute in
    match predict_drug_combinations demo_model demo_label_encoder
            demo_side_effects_df demo_drug_names_df "DrugA" with
    | Ok rs => rs
    | Raise _ => []
    end.

Definition demo_record_B : combination :=
  Eval vm_compute in
    match demo_ranking !! 2 with
    | Some r => r
    | None => {| drug := ""; risk_score := 0; severity_score := Finite 0;
                 combined_score := Finite 0; common_side_effects := ∅ |}
    end.

(** Its first record, for [DrugC]. *)
Definition demo_record_C : combination :=
  Eval vm_compute in
    match demo_ranking !! 0 with
    | Some r => r
    | None => {| drug := ""; risk_score := 0; severity_score := Finite 0;
                 combined_score := Finite 0; common_side_effects := ∅ |}
    end.

(** A model whose inference fails on every vector with the third slot set. *)
Definition failing_model : booster :=
  {| predict := λ fv,
       match fv !! 2 with
       | Some q => if Qeq_bool q 1 then Raise (ModelError "inference failed")
                   else Ok (Numeric (Finite 1))
       | None => Ok (Numeric (Finite 1))
       end |}.

(** A model that hands back a non-numeric object on those vectors. *)
Definition non_numeric_model : booster :=
  {| predict := λ fv,
       match fv !! 2 with
       | Some q => if Qeq_bool q 1 then Ok NonNumeric
                   else Ok (Numeric (Finite 1))
       | None => Ok (Numeric (Finite 1))
       end |}.

(** A model that hands back a string [float()] cannot read on those
    vectors. *)
Definition unparsable_model : booster :=
  {| predict := λ fv,
       match fv !! 2 with
       | Some q => if Qeq_bool q 1 then Ok Unparsable
                   else Ok (Numeric (Finite 1))
       | None => Ok (Numeric (Finite 1))
       end |}.

(** A second data set: [DrugA] shares one label with [DrugB] and none with
    [DrugN] and [DrugR]; and a model that predicts [nan] on every vector
    with the slot of [dizziness] set, and class 1 otherwise. *)
Definition nan_side_effects_df : list side_effect_row := [
  {| se_drug_id := "CID1"; side_effect_name := "nausea" |};
  {| se_drug_id := "CID1"; side_effect_name := "rash" |};
  {| se_drug_id := "CID2"; side_effect_name := "nausea" |};
  {| se_drug_id := "CID2"; side_effect_name := "fatigue" |};
  {| se_drug_id := "CID3"; side_effect_name := "dizziness" |};
  {| se_drug_id := "CID4"; side_effect_name := "headache" |}
].

Definition nan_drug_names_df : list drug_name_row := [
  {| dn_drug_id := "CID1"; drug_name := "DrugA" |};
  {| dn_drug_id := "CID2"; drug_name := "DrugB" |};
  {| dn_drug_id := "CID3"; drug_name := "DrugN" |};
  {| dn_drug_id := "CID4"; drug_name := "DrugR" |}
].

Definition nan_model : booster :=
  {| predict := λ fv,
       match fv !! 3 with
       | Some q => if Qeq_bool q 1 then Ok (Numeric NaN)
                   else Ok (Numeric (Finite 1))
       | None => Ok (Numeric (Finite 1))
       end |}.

(** The ranking of the candidates of [DrugA] on that data set. *)
Definition nan_ranking : list combination :=
  Eval vm_compute in
    match predict_drug_combinations nan_model demo_label_encoder
            nan_side_effects_df nan_drug_names_df "DrugA" with
    | Ok rs => rs
    | Raise _ => []
    end.

(** ** The application page *)

(** A row of [disease_data_df]; the page reads its [disease] and [drug]
    columns. *)
Record disease_row : Type := {
  disease : string;
  dd_drug : string
}.

(** A row of [merged_df]: a side-effect row, a drug-name row and a disease
    row joined into one. *)
Record merged_row : Type := {
  m_side_effect : side_effect_row;
  m_drug_name : drug_name_row;
  m_disease : disease_row
}.

(** Line 144: the inner join of [side_effects_df] with [drug_names_df] on
    [drug_id], then with [disease_data_df] on [drug_name] = [drug]; rows come
    in the order of the left frame. *)
Definition merged_df (side_effects_df : list side_effect_row)
    (drug_names_df : list drug_name_row)
    (disease_data_df : list disease_row) : list merged_row :=
  se ← side_effects_df;
  dn ← filter (λ r, dn_drug_id r = se_drug_id se) drug_names_df;
  dd ← filter (λ r, dd_drug r = drug_name dn) disease_data_df;
  [ {| m_side_effect := se; m_drug_name := dn; m_disease := dd |} ].

(** Line 149. *)
Definition available_diseases (disease_data_df : list disease_row)
    : list string :=
  unique (disease <$> disease_data_df).

(** Line 155: the drugs offered for the selected disease. *)
Definition filtered_drugs (side_effects_df : list side_effect_row)
    (drug_names_df : list drug_name_row)
    (disease_data_df : list disease_row) (disease1 : string) : list string :=
  unique ((λ r, drug_name (m_drug_name r)) <$>
            filter (λ r, disease (m_disease r) = disease1)
              (merged_df side_effects_df drug_names_df disease_data_df)).

(** Line 184: the colour of a displayed score. *)
Definition risk_color (score : pyfloat) : string :=
  if float_lt score (Finite 30) then "green"
  else if float_lt score (Finite 60) then "orange"
  else "red".

(** One displayed combination, lines 176-188: its heading number, the drug,
    the colour of its score and the number of common effects. *)
Record card : Type := {
  card_number : nat;
  card_drug : string;
  card_color : string;
  card_common_effects : nat
}.

(** Lines 176-188: [for i, combo in enumerate(combinations[:2])]. *)
Definition top_cards (combinations : list combination) : list card :=
  imap (λ i combo,
          {| card_number := i + 1;
             card_drug := drug combo;
             card_color := risk_color (combined_score combo);
             card_common_effects := size (common_side_effects combo) |})
       (take 2 combinations).

(** The number of slots of a feature vector that hold 1. *)
Definition ones (feature_vector : list Q) : nat :=
  length (filter (λ q, q == 1)%Q feature_vector).

(** Diseases for the data set above, and the drug table without the second
    listing of [DrugB]. *)
Definition demo_disease_data_df : list disease_row := [
  {| disease := "migraine"; dd_drug := "DrugA" |};
  {| disease := "migraine"; dd_drug := "DrugC" |};
  {| disease := "eczema"; dd_drug := "DrugD" |}
].

Definition demo_single_names_df : list drug_name_row :=
  filter (λ r, dn_drug_id r ≠ "CID6") demo_drug_names_df.

(** ** Facts about the primitives *)

Lemma bind_ok {A B : Type} (m : result A) (k : A → result B) (b : B) :
  (x ← m; k x) = Ok b ↔ ∃ a, m = Ok a ∧ k a = Ok b.
Proof.
  destruct m as [a|e]; simpl; split.
  - intros H. by exists a.
  - by intros (a' & [= ->] & H).
  - intros [=].
  - by intros (a' & [=] & _).
Qed.

Lemma not_ok_raise {A : Type} (m : result A) : ¬ is_ok m ↔ ∃ e, m = Raise e.
Proof.
  split.
  - intros Hn. destruct m as [a|e]; [destruct Hn; by exists a | by exists e].
  - intros [e ->] [a [=]].
Qed.

(** [unique] *)

Lemma elem_of_unique_from (seen l : list string) (x : string) :
  x ∈ unique_from seen l ↔ x ∈ l ∧ x ∉ seen.
Proof.
  revert seen. induction l as [|y l IH]; intros seen; simpl.
  - set_solver.
  - case_bool_decide as Hy.
    + rewrite IH. set_solver.
    + rewrite elem_of_cons, IH.
      destruct (decide (x = y)) as [->|Hne]; set_solver.
Qed.

Lemma NoDup_unique_from (seen l : list string) : NoDup (unique_from seen l).
Proof.
  revert seen. induction l as [|y l IH]; intros seen; simpl.
  - constructor.
  - case_bool_decide as Hy; [apply IH|].
    constructor; [|apply IH].
    rewrite elem_of_unique_from. set_solver.
Qed.

Lemma elem_of_unique (l : list string) (x : string) : x ∈ unique l ↔ x ∈ l.
Proof. unfold unique. rewrite elem_of_unique_from. set_solver. Qed.

Lemma NoDup_unique (l : list string) : NoDup (unique l).
Proof. apply NoDup_unique_from. Qed.

(** [index] *)

Lemma index_ok (x : string) (l : list string) (i : nat) :
  index x l = Ok i ↔ l !! i = Some x ∧ ∀ j, j < i → l !! j ≠ Some x.
Proof.
  revert i. induction l as [|y l IH]; intros i; simpl.
  - split; [intros [=] | intros [[=] _]].
  - case_bool_decide as Hy.
    + subst y. split.
      * intros [= <-]. split; [done | intros j Hj; lia].
      * intros [Hi Hfirst]. destruct i as [|i]; [done|].
        destruct (Hfirst 0); [lia | done].
    + rewrite bind_ok. split.
      * intros (i' & Hi' & [= <-]). apply IH in Hi' as [Hl Hfirst].
        split; [done|]. intros [|j] Hj; simpl; [congruence|].
        apply Hfirst. lia.
      * intros [Hi Hfirst]. destruct i as [|i]; simpl in Hi; [congruence|].
        exists i. split; [|done]. apply IH. split; [done|].
        intros j Hj. apply (Hfirst (S j)). lia.
Qed.

Lemma index_elem_of (x : string) (l : list string) :
  x ∈ l → ∃ i, index x l = Ok i ∧ i < length l.
Proof.
  induction l as [|y l IH]; simpl.
  - by intros ?%elem_of_nil.
  - intros Hx. case_bool_decide as Hy.
    + exists 0. split; [done | lia].
    + destruct IH as (i & Hi & Hlt); [set_solver|].
      exists (S i). rewrite Hi. split; [done | lia].
Qed.

Lemma index_NoDup (l : list string) (i : nat) (x : string) :
  NoDup l → l !! i = Some x → index x l = Ok i.
Proof.
  intros Hnd Hi. apply index_ok. split; [done|].
  intros j Hj Hjx. pose proof (NoDup_lookup l i j x Hnd Hi Hjx). lia.
Qed.

(** [create_feature_vector] *)

Lemma mark_slots_spec (all ses : list string) (fv : list Q) :
  length fv = length all →
  ∃ fv', mark_slots all ses fv = Ok fv' ∧
    length fv' = length all ∧
    ∀ i, (∀ se, se ∈ ses → index se all = Ok i → fv' !! i = Some 1%Q) ∧
         ((∀ se, se ∈ ses → index se all ≠ Ok i) → fv' !! i = fv !! i) ∧
         (fv !! i = Some 1%Q → fv' !! i = Some 1%Q).
Proof.
  revert fv. induction ses as [|se ses IH]; intros fv Hlen; simpl.
  - exists fv. split; [done|]. split; [done|]. intros i.
    split; [by intros se ?%elem_of_nil | done].
  - case_bool_decide as Hin.
    + destruct (index_elem_of se all Hin) as (idx & Hidx & Hlt).
      rewrite Hidx. simpl. unfold setitem.
      rewrite bool_decide_true by lia. simpl.
      destruct (IH (<[idx:=1%Q]> fv)) as (fv' & Hrun & Hlen' & Hslots).
      { by rewrite length_insert. }
      exists fv'. split; [done|]. split; [done|]. intros i.
      destruct (Hslots i) as (Hone & Hkeep & Hmono). split; [|split].
      * intros se' Hse' Hi.
        apply elem_of_cons in Hse' as [->|Hse']; [|by eapply Hone].
        rewrite Hidx in Hi. injection Hi as <-.
        apply Hmono, list_lookup_insert_eq. lia.
      * intros Hno. rewrite Hkeep by (intros s Hs; apply Hno; set_solver).
        apply list_lookup_insert_ne. intros <-.
        by apply (Hno se); [set_solver|].
      * intros Hi. apply Hmono.
        destruct (decide (idx = i)) as [<-|Hne].
        -- apply list_lookup_insert_eq. lia.
        -- by rewrite list_lookup_insert_ne.
    + destruct (IH fv Hlen) as (fv' & Hrun & Hlen' & Hslots).
      exists fv'. split; [done|]. split; [done|]. intros i.
      destruct (Hslots i) as (Hone & Hkeep & Hmono). split; [|split]; [| |done].
      * intros se' Hse' Hi. apply elem_of_cons in Hse' as [->|Hse'].
        -- destruct Hin. apply index_ok in Hi as [Hi _].
           by eapply list_elem_of_lookup_2.
        -- by eapply Hone.
      * intros Hno. apply Hkeep. intros s Hs. apply Hno. set_solver.
Qed.

(** The vector is always produced, has one slot per vocabulary entry, and a
    slot holds 1 exactly when its entry is in the union and the slot is the
    entry's first position in the vocabulary. *)
Lemma create_feature_vector_spec (A B : gset string) (all : list string) :
  ∃ fv, create_feature_vector A B all = Ok fv ∧
    length fv = length all ∧
    ∀ i e, all !! i = Some e →
      fv !! i = Some (if decide (e ∈ A ∪ B ∧ index e all = Ok i)
                      then 1%Q else 0%Q).
Proof.
  unfold create_feature_vector.
  destruct (mark_slots_spec all (elements (A ∪ B))
              (replicate (length all) 0%Q)) as (fv & Hrun & Hlen & Hslots).
  { apply length_replicate. }
  exists fv. split; [done|]. split; [done|]. intros i e Hie.
  destruct (Hslots i) as (Hone & Hkeep & _).
  case_decide as Hd.
  - destruct Hd as [He Hidx]. apply (Hone e); [|done].
    by apply elem_of_elements.
  - rewrite Hkeep.
    + apply lookup_replicate_2. by eapply lookup_lt_Some.
    + intros se Hse Hidx. apply Hd.
      assert (se = e) as ->.
      { apply index_ok in Hidx as [Hl _]. congruence. }
      split; [by apply elem_of_elements | done].
Qed.

(** ** Facts about [sorted] *)

Lemma float_lt_spec (a b : Q) :
  float_lt (Finite a) (Finite b) = true ↔ (a < b)%Q.
Proof.
  simpl. rewrite negb_true_iff, <- not_true_iff_false, Qle_bool_iff.
  split; [apply Qnot_le_lt | apply Qlt_not_le].
Qed.

Lemma float_lt_fle (a b : pyfloat) : float_lt a b = true → fle a b.
Proof.
  destruct a as [x| | |], b as [y| | |]; simpl; try done.
  intros Hlt. by apply Qlt_le_weak, float_lt_spec.
Qed.

Lemma float_lt_not_fle (a b : pyfloat) : float_lt a b = true → ¬ fle b a.
Proof.
  destruct a as [x| | |], b as [y| | |]; simpl; try done; try tauto.
  intros Hlt. by apply Qlt_not_le, float_lt_spec.
Qed.

Lemma float_lt_false_fle (a b : pyfloat) :
  a ≠ NaN → b ≠ NaN → float_lt a b = false → fle b a.
Proof.
  destruct a as [x| | |], b as [y| | |]; simpl; try done.
  intros _ _ Hlt. apply Qnot_lt_le. rewrite <- float_lt_spec. simpl. congruence.
Qed.

Lemma fle_trans (a b c : pyfloat) : fle a b → fle b c → fle a c.
Proof.
  destruct a as [x| | |], b as [y| | |], c as [z| | |]; simpl; try done.
  apply Qle_trans.
Qed.

Lemma fle_not_NaN (a b : pyfloat) : fle a b → a ≠ NaN ∧ b ≠ NaN.
Proof. destruct a, b; simpl; try done; tauto. Qed.

Lemma feq_not_lt (a b c : pyfloat) : feq a c → feq b c → float_lt a b = false.
Proof.
  destruct a as [x| | |], b as [y| | |], c as [z| | |]; simpl; try done.
  intros Hx Hy. apply negb_false_iff, Qle_bool_iff. rewrite Hx, Hy.
  apply Qle_refl.
Qed.

Lemma feq_sym (a b : pyfloat) : feq a b → feq b a.
Proof. destruct a, b; simpl; done. Qed.

Lemma feq_refl_l (a b : pyfloat) : feq a b → feq a a.
Proof. destruct a, b; simpl; done. Qed.

Lemma sublist_filter_mono {A : Type} (P : A → Prop) `{!∀ x, Decision (P x)}
    (l1 l2 : list A) :
  l1 `sublist_of` l2 → filter P l1 `sublist_of` filter P l2.
Proof.
  induction 1 as [|x l1 l2 _ IH|x l1 l2 _ IH].
  - constructor.
  - rewrite !filter_cons. case_decide; [by constructor | done].
  - rewrite filter_cons. case_decide; [by constructor | done].
Qed.

Section SortedFacts.
Context {A : Type} (key : A → pyfloat).

Lemma insert_by_Permutation (x : A) (l : list A) : insert_by key x l ≡ₚ x :: l.
Proof.
  induction l as [|y l IH]; simpl; [done|].
  destruct (float_lt (key y) (key x)); [|done].
  rewrite IH. apply Permutation_swap.
Qed.

Lemma sorted_Permutation (l : list A) : sorted key l ≡ₚ l.
Proof.
  induction l as [|x l IH]; simpl; [done|].
  by rewrite insert_by_Permutation, IH.
Qed.

Lemma insert_by_StronglySorted (x : A) (l : list A) :
  key x ≠ NaN → Forall (λ y, key y ≠ NaN) l →
  StronglySorted (key_le key) l → StronglySorted (key_le key) (insert_by key x l).
Proof.
  intros Hx Hnan Hsorted.
  induction Hsorted as [|y l Hs IH Hall]; simpl.
  - repeat constructor.
  - apply Forall_cons in Hnan as [Hy Hnan].
    destruct (float_lt (key y) (key x)) eqn:Hlt.
    + constructor; [by apply IH|].
      rewrite insert_by_Permutation. constructor; [|done].
      by apply float_lt_fle.
    + assert (key_le key x y) as Hxy by (by apply float_lt_false_fle).
      constructor; [by constructor|].
      constructor; [done|].
      eapply Forall_impl; [exact Hall|].
      intros z Hyz. unfold key_le in *. by eapply fle_trans.
Qed.

(** Without a [nan] key the result is in ascending order. *)
Lemma sorted_StronglySorted (l : list A) :
  Forall (λ x, key x ≠ NaN) l → StronglySorted (key_le key) (sorted key l).
Proof.
  induction 1 as [|x l Hx Hnan IH]; simpl; [constructor|].
  apply insert_by_StronglySorted; [done| |done].
  by rewrite sorted_Permutation.
Qed.

(** With a [nan] key no arrangement of two or more elements is in ascending
    order. *)
Lemma StronglySorted_not_NaN (l : list A) :
  StronglySorted (key_le key) l → 2 ≤ length l →
  Forall (λ x, key x ≠ NaN) l.
Proof.
  induction 1 as [|x l Hs IH Hall]; simpl; [lia|]. intros Hlen.
  destruct l as [|y l]; [simpl in Hlen; lia|].
  pose proof Hall as [Hxy _]%Forall_cons.
  apply fle_not_NaN in Hxy as [Hx Hy].
  constructor; [done|].
  destruct l as [|z l]; [by constructor|].
  apply IH. simpl. lia.
Qed.

(** Elements with one and the same key are never reordered. *)
Lemma filter_insert_by (c : pyfloat) (x : A) (l : list A) :
  filter (λ a, feq (key a) c) (insert_by key x l)
  = filter (λ a, feq (key a) c) (x :: l).
Proof.
  induction l as [|y l IH]; simpl; [done|].
  destruct (float_lt (key y) (key x)) eqn:Hlt; [|done].
  rewrite filter_cons, IH, !filter_cons.
  destruct (decide (feq (key y) c)) as [Hy|Hy]; [|done].
  destruct (decide (feq (key x) c)) as [Hx|Hx]; [|done].
  exfalso. rewrite (feq_not_lt _ _ _ Hy Hx) in Hlt. done.
Qed.

Lemma filter_sorted (c : pyfloat) (l : list A) :
  filter (λ a, feq (key a) c) (sorted key l) = filter (λ a, feq (key a) c) l.
Proof.
  induction l as [|x l IH]; simpl; [done|].
  by rewrite filter_insert_by, !filter_cons, IH.
Qed.

Lemma sorted_stable (a b : A) (l : list A) :
  feq (key a) (key b) → before a b (sorted key l) → before a b l.
Proof.
  unfold before. intros Hab Hbefore.
  apply (sublist_filter_mono (λ r, feq (key r) (key a))) in Hbefore.
  rewrite filter_sorted in Hbefore.
  rewrite !filter_cons, filter_nil in Hbefore.
  rewrite decide_True in Hbefore by (by eapply feq_refl_l).
  rewrite decide_True in Hbefore by (by apply feq_sym).
  etrans; [exact Hbefore | apply sublist_filter].
Qed.

Lemma elem_of_sorted (x : A) (l : list A) : x ∈ sorted key l ↔ x ∈ l.
Proof. by rewrite sorted_Permutation. Qed.
End SortedFacts.

(** ** Facts about the arithmetic *)

Lemma nat_ratio_half (c n : nat) :
  n ≠ 0 → 2 * c ≤ n →
  (inject_Z (Z.of_nat c) / inject_Z (Z.of_nat n) <= 1 # 2)%Q.
Proof.
  intros Hn Hc. apply Qle_shift_div_r.
  - change 0%Q with (inject_Z 0). rewrite <- Zlt_Qlt. lia.
  - unfold Qle, Qmult, inject_Z. simpl. lia.
Qed.

Lemma nat_ratio_self (n : nat) :
  n ≠ 0 →
  (inject_Z (Z.of_nat n) / inject_Z (Z.of_nat (n + n)) == 1 # 2)%Q.
Proof.
  intros Hn. rewrite Nat2Z.inj_add, inject_Z_plus.
  assert (~ inject_Z (Z.of_nat n) == 0)%Q as Hnz.
  { change 0%Q with (inject_Z 0). rewrite inject_Z_injective. lia. }
  field. intros H0. apply Hnz. lra.
Qed.

Lemma size_inter_le (A B : gset string) :
  2 * size (A ∩ B) ≤ size A + size B.
Proof.
  assert (size (A ∩ B) ≤ size A) by (apply subseteq_size; set_solver).
  assert (size (A ∩ B) ≤ size B) by (apply subseteq_size; set_solver).
  lia.
Qed.

Lemma size_sum_nonzero (A B : gset string) :
  size A + size B ≠ 0 ↔ A ≠ ∅ ∨ B ≠ ∅.
Proof.
  pose proof (size_empty_iff (C := gset string) A) as HA.
  pose proof (size_empty_iff (C := gset string) B) as HB.
  unfold_leibniz.
  destruct (decide (size A = 0)), (decide (size B = 0)); split; intros H;
    try lia; tauto.
Qed.

Lemma overlap_risk_ok (A B : gset string) (q : Q) :
  overlap_risk A B = Ok q ↔
  size A + size B ≠ 0 ∧
  q = (inject_Z (Z.of_nat (size (A ∩ B)))
       / inject_Z (Z.of_nat (size A + size B)) * 100)%Q.
Proof.
  unfold overlap_risk, int_truediv. case_bool_decide as Hz; simpl.
  - split; [intros [=] | intros [[] _]; done].
  - split; [intros [= <-]; done | intros [_ ->]; done].
Qed.

(** ** Facts about the ranking run *)

Section EngineFacts.
Context (model : booster) (label_encoder : label_encoder_t).
Context (side_effects_df : list side_effect_row).
Context (drug_names_df : list drug_name_row).

Local Abbreviation score_combination :=
  (score_combination model label_encoder side_effects_df drug_names_df).
Local Abbreviation score_all :=
  (score_all model label_encoder side_effects_df drug_names_df).
Local Abbreviation predict_drug_combinations :=
  (predict_drug_combinations model label_encoder side_effects_df drug_names_df).
Local Abbreviation side_effects_of d :=
  (get_drug_side_effects d side_effects_df drug_names_df).

(** What a successful pass through the loop body went through. *)
Lemma score_combination_ok (drug1_ses : gset string) (drug2 : string)
    (c : combination) :
  score_combination drug1_ses drug2 = Ok c →
  ∃ ses2 risk fv q s,
    side_effects_of drug2 = Ok ses2 ∧
    overlap_risk drug1_ses (list_to_set ses2) = Ok risk ∧
    create_feature_vector drug1_ses (list_to_set ses2)
      (all_side_effects side_effects_df) = Ok fv ∧
    predict model fv = Ok (Numeric q) ∧
    float_truediv q (length (classes_ label_encoder)) = Ok s ∧
    c = {| drug := drug2;
           risk_score := risk;
           severity_score := fmul s (Finite 100);
           combined_score :=
             fadd (fmul (Finite 0.6) (Finite risk))
                  (fmul (Finite 0.4) (fmul s (Finite 100)));
           common_side_effects := drug1_ses ∩ list_to_set ses2 |}.
Proof.
  unfold score_combination. intros H.
  apply bind_ok in H as (ses2 & Hses2 & H). cbv zeta in H.
  apply bind_ok in H as (risk & Hrisk & H).
  apply bind_ok in H as (fv & Hfv & H).
  apply bind_ok in H as (p & Hp & H).
  apply bind_ok in H as (x & Hx & H).
  apply bind_ok in H as (s & Hs & H).
  destruct p as [q| |]; simpl in Hx; [|done|done].
  injection Hx as ->. injection H as <-.
  by exists ses2, risk, fv, x, s.
Qed.

Lemma score_combination_drug (drug1_ses : gset string) (drug2 : string)
    (c : combination) :
  score_combination drug1_ses drug2 = Ok c → drug c = drug2.
Proof.
  intros H. apply score_combination_ok in H
    as (ses2 & risk & fv & q & s & _ & _ & _ & _ & _ & ->). done.
Qed.

(** The loop succeeds exactly when every pass does, and then appends the
    passes' dictionaries in enumeration order. *)
Lemma score_all_ok (drug1_ses : gset string) (drugs : list string)
    (acc cs : list combination) :
  score_all drug1_ses drugs acc = Ok cs ↔
  ∃ cs', cs = acc ++ cs' ∧
    Forall2 (λ d c, score_combination drug1_ses d = Ok c) drugs cs'.
Proof.
  revert acc. induction drugs as [|d drugs IH]; intros acc; simpl.
  - split.
    + intros [= <-]. exists []. by rewrite app_nil_r.
    + intros (cs' & -> & ->%Forall2_nil_inv_l). by rewrite app_nil_r.
  - rewrite bind_ok. split.
    + intros (c & Hc & Hrest). apply IH in Hrest as (cs' & -> & Hall).
      exists (c :: cs'). rewrite <- app_assoc. split; [done|].
      by constructor.
    + intros (cs' & -> & Hall).
      apply Forall2_cons_inv_l in Hall as (c & cs'' & Hc & Hall & ->).
      exists c. split; [done|]. apply IH. exists cs''.
      by rewrite <- app_assoc.
Qed.

(** The first pass that raises ends the loop with its exception. *)
Lemma score_all_first_raise (drug1_ses : gset string)
    (pre post : list string) (d : string) (acc : list combination) (e : exn) :
  Forall (λ d', is_ok (score_combination drug1_ses d')) pre →
  score_combination drug1_ses d = Raise e →
  score_all drug1_ses (pre ++ d :: post) acc = Raise e.
Proof.
  intros Hpre Hd. revert acc.
  induction Hpre as [|d' pre [c Hc] _ IH]; intros acc; simpl.
  - by rewrite Hd.
  - rewrite Hc. simpl. apply IH.
Qed.

Lemma predict_drug_combinations_ok (drug1 : string) (rs : list combination) :
  predict_drug_combinations drug1 = Ok rs →
  ∃ ses1 combinations,
    side_effects_of drug1 = Ok ses1 ∧
    Forall2 (λ d c, score_combination (list_to_set ses1) d = Ok c)
      (other_drugs drug_names_df drug1) combinations ∧
    rs = sorted combined_score combinations.
Proof.
  unfold predict_drug_combinations. intros H.
  apply bind_ok in H as (ses1 & Hses1 & H). cbv zeta in H.
  apply bind_ok in H as (cs & Hcs & H). injection H as <-.
  apply score_all_ok in Hcs as (cs' & -> & Hall).
  by exists ses1, cs'.
Qed.

(** Every returned record is the dictionary built for one candidate. *)
Lemma predict_drug_combinations_elem (drug1 : string)
    (rs : list combination) (r : combination) :
  predict_drug_combinations drug1 = Ok rs → r ∈ rs →
  ∃ ses1,
    side_effects_of drug1 = Ok ses1 ∧
    drug r ∈ other_drugs drug_names_df drug1 ∧
    score_combination (list_to_set ses1) (drug r) = Ok r.
Proof.
  intros Hrun Hr.
  apply predict_drug_combinations_ok in Hrun as (ses1 & cs & Hses1 & Hall & ->).
  apply elem_of_sorted, list_elem_of_lookup in Hr as [i Hi].
  destruct (Forall2_lookup_r _ _ _ _ _ Hall Hi) as (d & Hd & Hc).
  exists ses1. rewrite (score_combination_drug _ _ _ Hc).
  split; [done|]. split; [|done]. by eapply list_elem_of_lookup_2.
Qed.

Lemma predict_drug_combinations_drugs (drug1 : string)
    (rs : list combination) :
  predict_drug_combinations drug1 = Ok rs →
  drug <$> rs ≡ₚ other_drugs drug_names_df drug1.
Proof.
  intros Hrun.
  apply predict_drug_combinations_ok in Hrun as (ses1 & cs & _ & Hall & ->).
  rewrite sorted_Permutation.
  assert (drug <$> cs = other_drugs drug_names_df drug1) as ->; [|done].
  induction Hall as [|d c ds cs Hc _ IH]; [done|].
  by rewrite fmap_cons, IH, (score_combination_drug _ _ _ Hc).
Qed.

Lemma elem_of_other_drugs (drug1 d : string) :
  d ∈ other_drugs drug_names_df drug1 ↔
  d ∈ drug_name <$> drug_names_df ∧ d ≠ drug1.
Proof.
  unfold other_drugs, available_drugs.
  rewrite list_elem_of_filter, elem_of_unique. tauto.
Qed.

End EngineFacts.

(** ** The overlap risk *)

Lemma NoDup_other_drugs (drug_names_df : list drug_name_row) (drug1 : string) :
  NoDup (other_drugs drug_names_df drug1).
Proof. apply NoDup_filter, NoDup_unique. Qed.

Lemma overlap_risk_nonempty (A B : gset string) :
  A ≠ ∅ ∨ B ≠ ∅ →
  overlap_risk A B
  = Ok (inject_Z (Z.of_nat (size (A ∩ B)))
        / inject_Z (Z.of_nat (size A + size B)) * 100)%Q.
Proof. intros H. apply overlap_risk_ok. by rewrite size_sum_nonzero. Qed.

(** C1: in a ranking run that returns, the overlap risk of every result
    record is [|A ∩ B| / (|A| + |B|) * 100], with [A] the anchor's and [B] the
    record's candidate's set of side effects, which are not both empty; it is
    0 when [A] and [B] are disjoint. *)
Theorem overlap_risk_formula (model : booster) (label_encoder : label_encoder_t)
    (side_effects_df : list side_effect_row)
    (drug_names_df : list drug_name_row)
    (drug1 : string) (rs : list combination) (r : combination) :
  predict_drug_combinations model label_encoder side_effects_df drug_names_df
    drug1 = Ok rs →
  r ∈ rs →
  ∃ ses1 ses2,
    get_drug_side_effects drug1 side_effects_df drug_names_df = Ok ses1 ∧
    get_drug_side_effects (drug r) side_effects_df drug_names_df = Ok ses2 ∧
    let A : gset string := list_to_set ses1 in
    let B : gset string := list_to_set ses2 in
    (A ≠ ∅ ∨ B ≠ ∅) ∧
    (risk_score r == inject_Z (Z.of_nat (size (A ∩ B)))
                     / inject_Z (Z.of_nat (size A + size B)) * 100)%Q ∧
    (A ## B → risk_score r == 0)%Q.
Proof.
  intros Hrun Hr.
  destruct (predict_drug_combinations_elem _ _ _ _ _ _ _ Hrun Hr)
    as (ses1 & Hses1 & _ & Hscore).
  apply score_combination_ok in Hscore
    as (ses2 & risk & fv & q & s & Hses2 & Hrisk & _ & _ & _ & Hrec).
  exists ses1, ses2. split; [done|]. split; [done|]. cbv zeta.
  apply overlap_risk_ok in Hrisk as [Hnz Hval].
  rewrite Hrec. simpl. subst risk.
  split; [by apply size_sum_nonzero|]. split; [reflexivity|].
  intros Hdisj.
  assert (list_to_set ses1 ∩ list_to_set ses2 = (∅ : gset string)) as ->
    by set_solver.
  rewrite size_empty. simpl. unfold Qdiv. by rewrite !Qmult_0_l.
Qed.

Lemma overlap_risk_formula_witness :
  predict_drug_combinations demo_model demo_label_encoder
    demo_side_effects_df demo_drug_names_df "DrugA" = Ok demo_ranking ∧
  demo_record_B ∈ demo_ranking ∧
  ∃ ses1 ses2,
    get_drug_side_effects "DrugA" demo_side_effects_df demo_drug_names_df
      = Ok ses1 ∧
    get_drug_side_effects (drug demo_record_B) demo_side_effects_df
      demo_drug_names_df = Ok ses2 ∧
    let A : gset string := list_to_set ses1 in
    let B : gset string := list_to_set ses2 in
    (A ≠ ∅ ∨ B ≠ ∅) ∧
    (risk_score demo_record_B
       == inject_Z (Z.of_nat (size (A ∩ B)))
          / inject_Z (Z.of_nat (size A + size B)) * 100)%Q ∧
    (A ## B → risk_score demo_record_B == 0)%Q.
Proof.
  assert (predict_drug_combinations demo_model demo_label_encoder
    demo_side_effects_df demo_drug_names_df "DrugA" = Ok demo_ranking) as Hrun
    by (vm_compute; reflexivity).
  assert (demo_record_B ∈ demo_ranking) as Hr
    by (apply list_elem_of_lookup; exists 2; vm_compute; reflexivity).
  split; [exact Hrun|]. split; [exact Hr|].
  exact (overlap_risk_formula _ _ _ _ _ _ _ Hrun Hr).
Defined.

(** ** The composite score *)

(** C2: in a ranking run that returns, every result record has composite
    score [0.6 * risk_score + 0.4 * severity_score], and its severity score is
    the model's numeric prediction on the pair's feature vector, divided by
    the number of classes, times 100, both in float arithmetic; for a finite
    prediction these are the rational values of the two formulas. *)
Theorem composite_score_formula (model : booster)
    (label_encoder : label_encoder_t)
    (side_effects_df : list side_effect_row)
    (drug_names_df : list drug_name_row)
    (drug1 : string) (rs : list combination) (r : combination) :
  predict_drug_combinations model label_encoder side_effects_df drug_names_df
    drug1 = Ok rs →
  r ∈ rs →
  combined_score r
  = fadd (fmul (Finite 0.6) (Finite (risk_score r)))
         (fmul (Finite 0.4) (severity_score r)) ∧
  ∃ ses1 ses2 fv x s,
    get_drug_side_effects drug1 side_effects_df drug_names_df = Ok ses1 ∧
    get_drug_side_effects (drug r) side_effects_df drug_names_df = Ok ses2 ∧
    create_feature_vector (list_to_set ses1) (list_to_set ses2)
      (all_side_effects side_effects_df) = Ok fv ∧
    predict model fv = Ok (Numeric x) ∧
    length (classes_ label_encoder) ≠ 0 ∧
    float_truediv x (length (classes_ label_encoder)) = Ok s ∧
    severity_score r = fmul s (Finite 100) ∧
    ∀ q, x = Finite q →
      ∃ severity combined,
        severity_score r = Finite severity ∧
        combined_score r = Finite combined ∧
        (severity
           == q / inject_Z (Z.of_nat (length (classes_ label_encoder))) * 100)%Q ∧
        (combined == 0.6 * risk_score r + 0.4 * severity)%Q.
Proof.
  intros Hrun Hr.
  destruct (predict_drug_combinations_elem _ _ _ _ _ _ _ Hrun Hr)
    as (ses1 & Hses1 & _ & Hscore).
  apply score_combination_ok in Hscore
    as (ses2 & risk & fv & x & s & Hses2 & _ & Hfv & Hx & Hs & Hrec).
  rewrite Hrec. simpl. split; [reflexivity|].
  exists ses1, ses2, fv, x, s.
  split; [exact Hses1|]. split; [exact Hses2|]. split; [exact Hfv|].
  split; [exact Hx|].
  assert (length (classes_ label_encoder) ≠ 0) as Hn.
  { intros Hz. unfold float_truediv in Hs.
    by rewrite bool_decide_true in Hs. }
  split; [exact Hn|]. split; [exact Hs|]. split; [reflexivity|].
  intros q ->. unfold float_truediv in Hs.
  rewrite bool_decide_false in Hs by done. injection Hs as <-. simpl.
  eexists _, _. split; [reflexivity|]. split; [reflexivity|].
  split; reflexivity.
Qed.

Lemma composite_score_formula_witness :
  predict_drug_combinations demo_model demo_label_encoder
    demo_side_effects_df demo_drug_names_df "DrugA" = Ok demo_ranking ∧
  demo_record_B ∈ demo_ranking ∧
  combined_score demo_record_B
  = fadd (fmul (Finite 0.6) (Finite (risk_score demo_record_B)))
         (fmul (Finite 0.4) (severity_score demo_record_B)) ∧
  feq (combined_score demo_record_B) (Finite 35).
Proof.
  assert (predict_drug_combinations demo_model demo_label_encoder
    demo_side_effects_df demo_drug_names_df "DrugA" = Ok demo_ranking) as Hrun
    by (vm_compute; reflexivity).
  assert (demo_record_B ∈ demo_ranking) as Hr
    by (apply list_elem_of_lookup; exists 2; vm_compute; reflexivity).
  split; [exact Hrun|]. split; [exact Hr|].
  split; [|vm_compute; reflexivity].
  exact (proj1 (composite_score_formula _ _ _ _ _ _ _ Hrun Hr)).
Defined.

(** ** The order of the ranking *)

(** C3, on the second data set, where the model predicts [nan] on the
    vector of [DrugN]: the run returns the records of [DrugB], [DrugN] and
    [DrugR] in this order, with composite scores 35, [nan] and 20. The
    sequence is not in non-decreasing order, and no arrangement of these
    records is. *)
Lemma ranking_with_nan_not_sorted :
  predict_drug_combinations nan_model demo_label_encoder
    nan_side_effects_df nan_drug_names_df "DrugA" = Ok nan_ranking ∧
  (∃ b n r, nan_ranking = [b; n; r] ∧
     drug b = "DrugB" ∧ feq (combined_score b) (Finite 35) ∧
     drug n = "DrugN" ∧ combined_score n = NaN ∧
     drug r = "DrugR" ∧ feq (combined_score r) (Finite 20) ∧
     ¬ fle (combined_score b) (combined_score r)) ∧
  ¬ StronglySorted (key_le combined_score) nan_ranking ∧
  ∀ rs, rs ≡ₚ nan_ranking → ¬ StronglySorted (key_le combined_score) rs.
Proof.
  split; [vm_compute; reflexivity|].
  split.
  { unfold nan_ranking. eexists _, _, _. split; [reflexivity|]. simpl.
    repeat (split; [reflexivity|]). unfold Qle. simpl. lia. }
  assert (∀ rs, rs ≡ₚ nan_ranking →
            ¬ StronglySorted (key_le combined_score) rs) as Hnone.
  { intros rs Hperm Hsorted.
    apply StronglySorted_not_NaN in Hsorted.
    - rewrite Hperm in Hsorted. unfold nan_ranking in Hsorted.
      apply Forall_cons in Hsorted as [_ Hsorted].
      apply Forall_cons in Hsorted as [Hn _]. by apply Hn.
    - rewrite (Permutation_length Hperm). simpl. lia. }
  split; [by apply Hnone | exact Hnone].
Qed.

(** C3, amended: when no composite score is [nan], the returned sequence is
    sorted in non-decreasing order of composite score, and two records with
    equal composite scores stand in the order in which their candidates were
    enumerated from the drug list. *)
Theorem ranking_sorted_stable (model : booster)
    (label_encoder : label_encoder_t)
    (side_effects_df : list side_effect_row)
    (drug_names_df : list drug_name_row)
    (drug1 : string) (rs : list combination) :
  predict_drug_combinations model label_encoder side_effects_df drug_names_df
    drug1 = Ok rs →
  Forall (λ r, combined_score r ≠ NaN) rs →
  StronglySorted (key_le combined_score) rs ∧
  ∀ a b, feq (combined_score a) (combined_score b) →
    before a b rs →
    before (drug a) (drug b) (other_drugs drug_names_df drug1).
Proof.
  intros Hrun Hnan.
  apply predict_drug_combinations_ok in Hrun as (ses1 & cs & _ & Hall & ->).
  rewrite sorted_Permutation in Hnan.
  split; [by apply sorted_StronglySorted|].
  intros a b Hab Hbefore.
  apply sorted_stable in Hbefore; [|done].
  assert (drug <$> cs = other_drugs drug_names_df drug1) as <-.
  { clear Hbefore Hnan. induction Hall as [|d c ds cs Hc _ IH]; [done|].
    by rewrite fmap_cons, IH, (score_combination_drug _ _ _ _ _ _ _ Hc). }
  unfold before in *. by apply (fmap_sublist drug) in Hbefore.
Qed.

Lemma ranking_sorted_stable_witness :
  predict_drug_combinations demo_model demo_label_encoder
    demo_side_effects_df demo_drug_names_df "DrugA" = Ok demo_ranking ∧
  Forall (λ r, combined_score r ≠ NaN) demo_ranking ∧
  drug <$> demo_ranking = ["DrugC"; "DrugE"; "DrugB"; "DrugD"] ∧
  other_drugs demo_drug_names_df "DrugA" = ["DrugB"; "DrugC"; "DrugD"; "DrugE"] ∧
  StronglySorted (key_le combined_score) demo_ranking ∧
  ∃ a b, demo_ranking !! 0 = Some a ∧ demo_ranking !! 1 = Some b ∧
    feq (combined_score a) (combined_score b) ∧
    before (drug a) (drug b) (other_drugs demo_drug_names_df "DrugA").
Proof.
  assert (predict_drug_combinations demo_model demo_label_encoder
    demo_side_effects_df demo_drug_names_df "DrugA" = Ok demo_ranking) as Hrun
    by (vm_compute; reflexivity).
  assert (Forall (λ r, combined_score r ≠ NaN) demo_ranking) as Hnan
    by (unfold demo_ranking; repeat (constructor; [discriminate|]);
        constructor).
  split; [exact Hrun|]. split; [exact Hnan|].
  split; [vm_compute; reflexivity|].
  split; [vm_compute; reflexivity|].
  destruct (ranking_sorted_stable _ _ _ _ _ _ Hrun Hnan) as [Hsorted Hstable].
  split; [exact Hsorted|].
  eexists _, _. split; [reflexivity|]. split; [reflexivity|].
  split; [reflexivity|].
  apply Hstable; [reflexivity|].
  unfold before, demo_ranking. do 2 apply sublist_skip. apply sublist_nil_l.
Defined.

(** ** The candidates *)

(** C7: the anchor is not among the candidates of a returned ranking, whose
    drugs are the known drug names other than the anchor's, compared as exact
    strings. *)
Theorem anchor_excluded (model : booster) (label_encoder : label_encoder_t)
    (side_effects_df : list side_effect_row)
    (drug_names_df : list drug_name_row)
    (drug1 : string) (rs : list combination) :
  predict_drug_combinations model label_encoder side_effects_df drug_names_df
    drug1 = Ok rs →
  (drug1 ∉ drug <$> rs) ∧
  ∀ d, d ∈ drug <$> rs ↔ d ∈ drug_name <$> drug_names_df ∧ d ≠ drug1.
Proof.
  intros Hrun. apply predict_drug_combinations_drugs in Hrun.
  assert (∀ d, d ∈ drug <$> rs ↔ d ∈ drug_name <$> drug_names_df ∧ d ≠ drug1)
    as Hiff.
  { intros d. by rewrite Hrun, elem_of_other_drugs. }
  split; [|done]. intros Hin. apply Hiff in Hin as [_ Hne]. done.
Qed.

Lemma anchor_excluded_witness :
  predict_drug_combinations demo_model demo_label_encoder
    demo_side_effects_df demo_drug_names_df "DrugA" = Ok demo_ranking ∧
  ("DrugA" ∉ drug <$> demo_ranking).
Proof.
  assert (predict_drug_combinations demo_model demo_label_encoder
    demo_side_effects_df demo_drug_names_df "DrugA" = Ok demo_ranking) as Hrun
    by (vm_compute; reflexivity).
  split; [exact Hrun|].
  exact (proj1 (anchor_excluded _ _ _ _ _ _ Hrun)).
Defined.

(** The exclusion is case-sensitive: a name that differs from the anchor's in
    case only stays a candidate. *)
Example other_drugs_case_sensitive :
  other_drugs [ {| dn_drug_id := "CID1"; drug_name := "DrugA" |};
                {| dn_drug_id := "CID7"; drug_name := "druga" |} ] "DrugA"
  = ["druga"].
Proof. reflexivity. Qed.

(** ** Looking up a drug *)

Lemma filter_first_match (name : string) (pre post : list drug_name_row)
    (row : drug_name_row) :
  drug_name row = name →
  (∀ r, r ∈ pre → drug_name r ≠ name) →
  filter (λ r, drug_name r = name) (pre ++ row :: post)
  = row :: filter (λ r, drug_name r = name) post.
Proof.
  intros Hrow Hpre. rewrite filter_app, filter_cons_True by done.
  induction pre as [|r pre IH]; [done|].
  rewrite filter_cons_False by (apply Hpre; left).
  apply IH. intros r' Hr'. apply Hpre. by right.
Qed.

(** C8: looking up a name that no record of the drug table carries raises
    [IndexError] (the engine's unknown-drug signal) to the caller; when
    several records carry the name, the identifier of the first one selects
    the side effects. *)
Theorem get_drug_side_effects_lookup (name : string)
    (side_effects_df : list side_effect_row)
    (drug_names_df : list drug_name_row) :
  ((∀ r, r ∈ drug_names_df → drug_name r ≠ name) →
   get_drug_side_effects name side_effects_df drug_names_df
   = Raise IndexError) ∧
  (∀ pre row post,
     drug_names_df = pre ++ row :: post →
     drug_name row = name →
     (∀ r, r ∈ pre → drug_name r ≠ name) →
     get_drug_side_effects name side_effects_df drug_names_df
     = Ok (side_effect_name <$>
             filter (λ r, se_drug_id r = dn_drug_id row) side_effects_df)).
Proof.
  unfold get_drug_side_effects. split.
  - intros Hnone.
    assert (filter (λ r, drug_name r = name) drug_names_df = []) as ->; [|done].
    induction drug_names_df as [|r l IH]; [done|].
    rewrite filter_cons_False by (apply Hnone; left).
    apply IH. intros r' Hr'. apply Hnone. by right.
  - intros pre row post -> Hrow Hpre.
    by rewrite filter_first_match.
Qed.

Lemma get_drug_side_effects_lookup_witness :
  get_drug_side_effects "Nonexistent" demo_side_effects_df demo_drug_names_df
  = Raise IndexError ∧
  get_drug_side_effects "DrugB" demo_side_effects_df demo_drug_names_df
  = Ok ["nausea"; "fatigue"; "nausea"].
Proof.
  destruct (get_drug_side_effects_lookup "Nonexistent" demo_side_effects_df
              demo_drug_names_df) as [Hnone _].
  destruct (get_drug_side_effects_lookup "DrugB" demo_side_effects_df
              demo_drug_names_df) as [_ Hfirst].
  split.
  - apply Hnone. intros r Hr Hname.
    unfold demo_drug_names_df in Hr.
    repeat (apply elem_of_cons in Hr as [->|Hr]; [discriminate Hname|]).
    by apply elem_of_nil in Hr.
  - apply (Hfirst [ {| dn_drug_id := "CID1"; drug_name := "DrugA" |} ]
             {| dn_drug_id := "CID2"; drug_name := "DrugB" |}
             (drop 2 demo_drug_names_df)).
    + reflexivity.
    + reflexivity.
    + intros r Hr Hname.
      apply elem_of_cons in Hr as [->|Hr]; [discriminate Hname|].
      by apply elem_of_nil in Hr.
Defined.

(** ** The feature vector *)

(** The vocabulary of line 55 names every label once. *)
Lemma NoDup_all_side_effects (side_effects_df : list side_effect_row) :
  NoDup (all_side_effects side_effects_df).
Proof. apply NoDup_unique. Qed.

(** C9: for every pair of side-effect sets and every vocabulary, a list that
    names each event once as line 55 builds it, the feature vector is
    produced without error and has the vocabulary's length, each slot holds
    1 if its event is in the union of the two sets and 0 otherwise, and the
    events of the union outside the vocabulary do not affect it: two sets
    with any other events beside give the same vector. *)
Theorem feature_vector_indicator (A B : gset string)
    (vocabulary : list string) :
  NoDup vocabulary →
  ∃ fv, create_feature_vector A B vocabulary = Ok fv ∧
    length fv = length vocabulary ∧
    (∀ i e, vocabulary !! i = Some e →
       fv !! i = Some (if decide (e ∈ A ∪ B) then 1%Q else 0%Q)) ∧
    (∀ A' B' : gset string,
       (∀ e, e ∈ vocabulary → e ∈ A' ∪ B' ↔ e ∈ A ∪ B) →
       create_feature_vector A' B' vocabulary = Ok fv).
Proof.
  intros Hnd.
  destruct (create_feature_vector_spec A B vocabulary)
    as (fv & Hfv & Hlen & Hslots).
  exists fv. split; [done|]. split; [done|]. split.
  - intros i e Hie. rewrite (Hslots i e Hie). f_equal.
    pose proof (index_NoDup vocabulary i e Hnd Hie).
    repeat case_decide; tauto.
  - intros A' B' Hsame.
    destruct (create_feature_vector_spec A' B' vocabulary)
      as (fv' & Hfv' & Hlen' & Hslots').
    rewrite Hfv'. f_equal. apply list_eq. intros i.
    destruct (vocabulary !! i) as [e|] eqn:Hie.
    + rewrite (Hslots i e Hie), (Hslots' i e Hie). f_equal.
      assert (e ∈ vocabulary) as He by (by eapply list_elem_of_lookup_2).
      specialize (Hsame e He).
      repeat case_decide; tauto.
    + apply lookup_ge_None in Hie.
      rewrite !lookup_ge_None_2 by lia. done.
Qed.

Lemma feature_vector_indicator_witness :
  NoDup (all_side_effects demo_side_effects_df) ∧
  all_side_effects demo_side_effects_df = ["nausea"; "rash"; "fatigue"] ∧
  ∃ fv,
    create_feature_vector {["nausea"; "rash"]} {["nausea"; "headache"]}
      (all_side_effects demo_side_effects_df) = Ok fv ∧
    length fv = 3 ∧
    create_feature_vector {["nausea"; "rash"]} {["nausea"]}
      (all_side_effects demo_side_effects_df) = Ok fv ∧
    fv !! 1 = Some 1%Q ∧ fv !! 2 = Some 0%Q.
Proof.
  pose proof (NoDup_all_side_effects demo_side_effects_df) as Hnd.
  assert (all_side_effects demo_side_effects_df
          = ["nausea"; "rash"; "fatigue"]) as Hvoc by (vm_compute; reflexivity).
  split; [exact Hnd|]. split; [exact Hvoc|].
  destruct (feature_vector_indicator {["nausea"; "rash"]}
              {["nausea"; "headache"]} (all_side_effects demo_side_effects_df)
              Hnd)
    as (fv & Hfv & Hlen & Hslots & Hignore).
  exists fv. split; [exact Hfv|]. split; [|split; [|split]].
  - rewrite Hlen, Hvoc. reflexivity.
  - apply Hignore. intros e He. rewrite Hvoc in He.
    assert (e ≠ "headache").
    { intros ->. revert He. apply (bool_decide_unpack _). vm_compute. exact I. }
    rewrite !elem_of_union, !elem_of_singleton. tauto.
  - assert (all_side_effects demo_side_effects_df !! 1 = Some "rash") as H1
      by (rewrite Hvoc; reflexivity).
    rewrite (Hslots 1 "rash" H1).
    rewrite decide_True; [reflexivity|].
    apply (bool_decide_unpack _). vm_compute. exact I.
  - assert (all_side_effects demo_side_effects_df !! 2 = Some "fatigue") as H2
      by (rewrite Hvoc; reflexivity).
    rewrite (Hslots 2 "fatigue" H2).
    rewrite decide_False; [reflexivity|].
    apply (bool_decide_unpack _). vm_compute. exact I.
Defined.

(** A list that names a label twice is not a vocabulary; on such a list only
    the first slot of the label is ever set. *)
Example feature_vector_repeated_label :
  create_feature_vector {["rash"]} ∅ ["rash"; "rash"] = Ok [1%Q; 0%Q].
Proof. vm_compute. reflexivity. Qed.

(** ** The range of the overlap risk *)

(** C5, on a one-label profile: the overlap risk of the profile with itself
    is 50, not 100. *)
Lemma self_overlap_not_100 :
  {["nausea"]} ≠ (∅ : gset string) ∧
  ∃ q, overlap_risk {["nausea"]} {["nausea"]} = Ok q ∧
    (q == 50)%Q ∧ ¬ (q == 100)%Q.
Proof.
  split; [apply (bool_decide_unpack _); vm_compute; exact I|].
  eexists. split; [vm_compute; reflexivity|].
  split; [reflexivity | discriminate].
Qed.

(** C5, amended: for every non-empty profile, the overlap risk of the profile
    with itself is 50. *)
Theorem self_overlap_is_50 (A : gset string) :
  A ≠ ∅ →
  ∃ q, overlap_risk A A = Ok q ∧ (q == 50)%Q.
Proof.
  intros HA. eexists. split; [apply overlap_risk_nonempty; by left|].
  assert (A ∩ A = A) as -> by set_solver.
  rewrite nat_ratio_self; [reflexivity|].
  intros Hz. apply HA. by apply size_empty_iff in Hz; unfold_leibniz.
Qed.

Lemma self_overlap_is_50_witness :
  {["nausea"; "rash"]} ≠ (∅ : gset string) ∧
  ∃ q, overlap_risk {["nausea"; "rash"]} {["nausea"; "rash"]} = Ok q ∧
    (q == 50)%Q.
Proof.
  assert ({["nausea"; "rash"]} ≠ (∅ : gset string)) as Hne
    by (apply (bool_decide_unpack _); vm_compute; exact I).
  split; [exact Hne|].
  exact (self_overlap_is_50 {["nausea"; "rash"]} Hne).
Defined.

(** C10: when at least one of the two profiles is non-empty, the overlap
    risk is computed and lies between 0 and 50, the intersection being no
    larger than either profile. *)
Theorem overlap_risk_at_most_50 (A B : gset string) :
  A ≠ ∅ ∨ B ≠ ∅ →
  size (A ∩ B) ≤ size A `min` size B ∧
  ∃ q, overlap_risk A B = Ok q ∧ (0 <= q <= 50)%Q.
Proof.
  intros Hne. pose proof (size_inter_le A B) as Hle.
  split.
  { assert (size (A ∩ B) ≤ size A) by (apply subseteq_size; set_solver).
    assert (size (A ∩ B) ≤ size B) by (apply subseteq_size; set_solver).
    lia. }
  eexists. split; [by apply overlap_risk_nonempty|].
  apply size_sum_nonzero in Hne.
  pose proof (nat_ratio_half _ _ Hne Hle) as Hhalf.
  assert (0 <= inject_Z (Z.of_nat (size (A ∩ B)))
               / inject_Z (Z.of_nat (size A + size B)))%Q as Hpos.
  { apply Qle_shift_div_l.
    - change 0%Q with (inject_Z 0). rewrite <- Zlt_Qlt. lia.
    - rewrite Qmult_0_l. change 0%Q with (inject_Z 0). rewrite <- Zle_Qle. lia. }
  split; lra.
Qed.

Lemma overlap_risk_at_most_50_witness :
  ∃ q, overlap_risk {["nausea"; "rash"]} {["nausea"; "fatigue"]} = Ok q ∧
    (0 <= q <= 50)%Q ∧ (q == 25)%Q.
Proof.
  destruct (overlap_risk_at_most_50 {["nausea"; "rash"]}
              {["nausea"; "fatigue"]}) as (_ & q & Hq & Hrange).
  { left. apply (bool_decide_unpack _). vm_compute. exact I. }
  exists q. split; [exact Hq|]. split; [exact Hrange|].
  revert Hq. vm_compute. intros [= <-]. reflexivity.
Defined.

Lemma overlap_risk_range (A B : gset string) (q : Q) :
  overlap_risk A B = Ok q → (0 <= q <= 50)%Q.
Proof.
  intros [Hnz ->]%overlap_risk_ok.
  pose proof (nat_ratio_half _ _ Hnz (size_inter_le A B)) as Hhalf.
  assert (0 <= inject_Z (Z.of_nat (size (A ∩ B)))
               / inject_Z (Z.of_nat (size A + size B)))%Q as Hpos.
  { apply Qle_shift_div_l.
    - change 0%Q with (inject_Z 0). rewrite <- Zlt_Qlt. lia.
    - rewrite Qmult_0_l. change 0%Q with (inject_Z 0). rewrite <- Zle_Qle. lia. }
  split; lra.
Qed.

(** In a ranking run that returns, no record has an overlap risk above 50. *)
Corollary ranking_risk_at_most_50 (model : booster)
    (label_encoder : label_encoder_t)
    (side_effects_df : list side_effect_row)
    (drug_names_df : list drug_name_row)
    (drug1 : string) (rs : list combination) (r : combination) :
  predict_drug_combinations model label_encoder side_effects_df drug_names_df
    drug1 = Ok rs →
  r ∈ rs → (0 <= risk_score r <= 50)%Q.
Proof.
  intros Hrun Hr.
  destruct (predict_drug_combinations_elem _ _ _ _ _ _ _ Hrun Hr)
    as (ses1 & _ & _ & Hscore).
  apply score_combination_ok in Hscore
    as (ses2 & risk & fv & q & s & _ & Hrisk & _ & _ & _ & ->). simpl.
  by eapply overlap_risk_range.
Qed.

(** ** Failures *)

(** C4: with both profiles empty the division of line 71 raises; on the data
    set above, ranking the candidates of [DrugC], which has no recorded side
    effect, stops at [DrugE], which has none either. *)
Theorem empty_profiles_raise :
  overlap_risk ∅ ∅ = Raise ZeroDivisionError ∧
  get_drug_side_effects "DrugC" demo_side_effects_df demo_drug_names_df
    = Ok [] ∧
  get_drug_side_effects "DrugE" demo_side_effects_df demo_drug_names_df
    = Ok [] ∧
  predict_drug_combinations demo_model demo_label_encoder
    demo_side_effects_df demo_drug_names_df "DrugC" = Raise ZeroDivisionError.
Proof. repeat split; vm_compute; reflexivity. Qed.

(** C6, on the data set above with a model that fails on the vector of
    [DrugB] and of no other candidate: the run ends with the model's
    exception and returns no record at all. *)
Lemma model_failure_loses_all_results :
  let run := predict_drug_combinations failing_model demo_label_encoder
               demo_side_effects_df demo_drug_names_df in
  let pass := score_combination failing_model demo_label_encoder
                demo_side_effects_df demo_drug_names_df
                {["nausea"; "rash"]} in
  other_drugs demo_drug_names_df "DrugA"
    = ["DrugB"; "DrugC"; "DrugD"; "DrugE"] ∧
  pass "DrugB" = Raise (ModelError "inference failed") ∧
  is_ok (pass "DrugC") ∧ is_ok (pass "DrugD") ∧ is_ok (pass "DrugE") ∧
  run "DrugA" = Raise (ModelError "inference failed") ∧
  ¬ ∃ rs, run "DrugA" = Ok rs ∧ "DrugC" ∈ drug <$> rs.
Proof.
  cbv zeta.
  assert (predict_drug_combinations failing_model demo_label_encoder
            demo_side_effects_df demo_drug_names_df "DrugA"
          = Raise (ModelError "inference failed")) as Hrun
    by (vm_compute; reflexivity).
  split; [vm_compute; reflexivity|].
  split; [vm_compute; reflexivity|].
  split; [eexists; vm_compute; reflexivity|].
  split; [eexists; vm_compute; reflexivity|].
  split; [eexists; vm_compute; reflexivity|].
  split; [exact Hrun|].
  intros (rs & Hrs & _). rewrite Hrun in Hrs. discriminate Hrs.
Qed.

(** C6, amended: if the model raises, or returns a non-numeric result (an
    object or a string that [float()] rejects), on the feature vector of some
    candidate, the whole ranking run ends with an exception and returns no
    record. *)
Theorem model_failure_aborts_run (model : booster)
    (label_encoder : label_encoder_t)
    (side_effects_df : list side_effect_row)
    (drug_names_df : list drug_name_row)
    (drug1 drug2 : string) (ses1 ses2 : list string) (fv : list Q) :
  get_drug_side_effects drug1 side_effects_df drug_names_df = Ok ses1 →
  drug2 ∈ other_drugs drug_names_df drug1 →
  get_drug_side_effects drug2 side_effects_df drug_names_df = Ok ses2 →
  create_feature_vector (list_to_set ses1) (list_to_set ses2)
    (all_side_effects side_effects_df) = Ok fv →
  (∃ e, predict model fv = Raise e) ∨
  predict model fv = Ok NonNumeric ∨
  predict model fv = Ok Unparsable →
  ∃ e, predict_drug_combinations model label_encoder side_effects_df
         drug_names_df drug1 = Raise e.
Proof.
  intros Hses1 Hcand Hses2 Hfv Hfail.
  apply not_ok_raise. intros [rs Hrun].
  apply predict_drug_combinations_ok in Hrun as (ses1' & cs & Hses1' & Hall & _).
  assert (ses1' = ses1) as -> by congruence.
  apply list_elem_of_lookup in Hcand as [i Hi].
  destruct (Forall2_lookup_l _ _ _ _ _ Hall Hi) as (c & _ & Hc).
  apply score_combination_ok in Hc
    as (ses2' & risk & fv' & q & s & Hses2' & _ & Hfv' & Hq & _).
  assert (ses2' = ses2) as -> by congruence.
  assert (fv' = fv) as -> by congruence.
  destruct Hfail as [[e He]|[Hnon|Hnon]]; congruence.
Qed.

Lemma model_failure_aborts_run_witness :
  (∃ e, predict_drug_combinations failing_model demo_label_encoder
          demo_side_effects_df demo_drug_names_df "DrugA" = Raise e) ∧
  (∃ e, predict_drug_combinations non_numeric_model demo_label_encoder
          demo_side_effects_df demo_drug_names_df "DrugA" = Raise e) ∧
  (∃ e, predict_drug_combinations unparsable_model demo_label_encoder
          demo_side_effects_df demo_drug_names_df "DrugA" = Raise e).
Proof.
  split; [|split].
  - apply (model_failure_aborts_run failing_model demo_label_encoder
             demo_side_effects_df demo_drug_names_df "DrugA" "DrugB"
             ["nausea"; "rash"] ["nausea"; "fatigue"; "nausea"]
             [1%Q; 1%Q; 1%Q]).
    + vm_compute; reflexivity.
    + apply (bool_decide_unpack _). vm_compute. exact I.
    + vm_compute; reflexivity.
    + vm_compute; reflexivity.
    + left. eexists. vm_compute. reflexivity.
  - apply (model_failure_aborts_run non_numeric_model demo_label_encoder
             demo_side_effects_df demo_drug_names_df "DrugA" "DrugB"
             ["nausea"; "rash"] ["nausea"; "fatigue"; "nausea"]
             [1%Q; 1%Q; 1%Q]).
    + vm_compute; reflexivity.
    + apply (bool_decide_unpack _). vm_compute. exact I.
    + vm_compute; reflexivity.
    + vm_compute; reflexivity.
    + right. left. vm_compute. reflexivity.
  - apply (model_failure_aborts_run unparsable_model demo_label_encoder
             demo_side_effects_df demo_drug_names_df "DrugA" "DrugB"
             ["nausea"; "rash"] ["nausea"; "fatigue"; "nausea"]
             [1%Q; 1%Q; 1%Q]).
    + vm_compute; reflexivity.
    + apply (bool_decide_unpack _). vm_compute. exact I.
    + vm_compute; reflexivity.
    + vm_compute; reflexivity.
    + right. right. vm_compute. reflexivity.
Defined.

(** ** More on looking up a drug *)

Lemma get_drug_side_effects_cases (name : string)
    (side_effects_df : list side_effect_row)
    (drug_names_df : list drug_name_row) :
  ((name ∉ drug_name <$> drug_names_df) ∧
   get_drug_side_effects name side_effects_df drug_names_df
   = Raise IndexError) ∨
  (∃ row, row ∈ drug_names_df ∧ drug_name row = name ∧
     get_drug_side_effects name side_effects_df drug_names_df
     = Ok (side_effect_name <$>
             filter (λ r, se_drug_id r = dn_drug_id row) side_effects_df)).
Proof.
  unfold get_drug_side_effects.
  destruct (filter (λ r, drug_name r = name) drug_names_df) as [|row l] eqn:Hf;
    simpl.
  - left. split; [|done].
    intros (r & Hname & Hr)%list_elem_of_fmap.
    assert (r ∈ filter (λ r, drug_name r = name) drug_names_df) as Hin
      by (by apply list_elem_of_filter).
    rewrite Hf in Hin. by apply elem_of_nil in Hin.
  - right. exists row.
    assert (row ∈ filter (λ r, drug_name r = name) drug_names_df) as Hin
      by (rewrite Hf; left).
    apply list_elem_of_filter in Hin as [Hname Hin]. done.
Qed.

Lemma lookup_labels_subseteq (name : string)
    (side_effects_df : list side_effect_row)
    (drug_names_df : list drug_name_row) (ses : list string) :
  get_drug_side_effects name side_effects_df drug_names_df = Ok ses →
  (list_to_set ses : gset string)
  ⊆ list_to_set (all_side_effects side_effects_df).
Proof.
  unfold get_drug_side_effects. intros Hget.
  apply bind_ok in Hget as (drug_id & _ & Hget). injection Hget as <-.
  intros se. rewrite !elem_of_list_to_set.
  intros (r & -> & Hr)%list_elem_of_fmap.
  apply list_elem_of_filter in Hr as [_ Hr].
  unfold all_side_effects. apply elem_of_unique.
  apply list_elem_of_fmap. by exists r.
Qed.

(** X1: the lookup returns exactly when the name is carried by some record of
    the drug table, whether or not the drug has side-effect rows. *)
Theorem lookup_succeeds_iff_known (name : string)
    (side_effects_df : list side_effect_row)
    (drug_names_df : list drug_name_row) :
  is_ok (get_drug_side_effects name side_effects_df drug_names_df)
  ↔ name ∈ drug_name <$> drug_names_df.
Proof.
  destruct (get_drug_side_effects_cases name side_effects_df drug_names_df)
    as [[Hnot ->]|(row & Hrow & Hname & ->)].
  - split; [intros [ses [=]] | done].
  - split; [|intros _; by eexists].
    intros _. apply list_elem_of_fmap. by exists row.
Qed.

(** X2: every label the lookup returns is a label of the vocabulary built on
    line 55 from the same side-effect table. *)
Theorem side_effects_in_vocabulary (name : string)
    (side_effects_df : list side_effect_row)
    (drug_names_df : list drug_name_row) (ses : list string) (se : string) :
  get_drug_side_effects name side_effects_df drug_names_df = Ok ses →
  se ∈ ses →
  se ∈ all_side_effects side_effects_df.
Proof.
  intros Hget Hse. apply lookup_labels_subseteq in Hget.
  specialize (Hget se). rewrite !elem_of_list_to_set in Hget. auto.
Qed.

Lemma side_effects_in_vocabulary_witness :
  get_drug_side_effects "DrugB" demo_side_effects_df demo_drug_names_df
    = Ok ["nausea"; "fatigue"; "nausea"] ∧
  "fatigue" ∈ all_side_effects demo_side_effects_df.
Proof.
  assert (get_drug_side_effects "DrugB" demo_side_effects_df
            demo_drug_names_df = Ok ["nausea"; "fatigue"; "nausea"]) as Hget
    by (vm_compute; reflexivity).
  split; [exact Hget|].
  apply (side_effects_in_vocabulary _ _ _ _ _ Hget).
  apply (bool_decide_unpack _). vm_compute. exact I.
Defined.

(** ** More on the feature vector *)

Lemma mark_slots_lookup (all ses : list string) :
  ∃ fv, mark_slots all ses (replicate (length all) 0%Q) = Ok fv ∧
    length fv = length all ∧
    ∀ i e, all !! i = Some e →
      fv !! i = Some (if decide (e ∈ ses ∧ index e all = Ok i)
                      then 1%Q else 0%Q).
Proof.
  destruct (mark_slots_spec all ses (replicate (length all) 0%Q))
    as (fv & Hrun & Hlen & Hslots).
  { apply length_replicate. }
  exists fv. split; [done|]. split; [done|]. intros i e Hie.
  destruct (Hslots i) as (Hone & Hkeep & _).
  case_decide as Hd.
  - destruct Hd as [He Hidx]. by apply (Hone e).
  - rewrite Hkeep.
    + apply lookup_replicate_2. by eapply lookup_lt_Some.
    + intros se Hse Hidx. apply Hd.
      assert (se = e) as ->.
      { apply index_ok in Hidx as [Hl _]. congruence. }
      done.
Qed.

(** X3: the vector does not depend on the order in which the labels of the
    union are visited, nor on visiting a label more than once. *)
Theorem feature_vector_order_independent (A B : gset string)
    (vocabulary ses : list string) :
  (∀ se, se ∈ ses ↔ se ∈ A ∪ B) →
  mark_slots vocabulary ses (replicate (length vocabulary) 0%Q)
  = create_feature_vector A B vocabulary.
Proof.
  intros Hsame.
  destruct (mark_slots_lookup vocabulary ses) as (fv & -> & Hlen & Hslots).
  destruct (mark_slots_lookup vocabulary (elements (A ∪ B)))
    as (fv' & Hfv' & Hlen' & Hslots').
  unfold create_feature_vector. rewrite Hfv'. f_equal.
  apply list_eq. intros i.
  destruct (vocabulary !! i) as [e|] eqn:Hie.
  - rewrite (Hslots i e Hie), (Hslots' i e Hie). f_equal.
    specialize (Hsame e). rewrite <- elem_of_elements in Hsame.
    repeat case_decide; tauto.
  - apply lookup_ge_None in Hie. rewrite !lookup_ge_None_2 by lia. done.
Qed.

Lemma feature_vector_order_independent_witness :
  mark_slots ["nausea"; "rash"; "fatigue"] ["fatigue"; "nausea"; "fatigue"]
    (replicate 3 0%Q)
  = create_feature_vector {["nausea"]} {["fatigue"]}
      ["nausea"; "rash"; "fatigue"].
Proof.
  apply (feature_vector_order_independent {["nausea"]} {["fatigue"]}
           ["nausea"; "rash"; "fatigue"] ["fatigue"; "nausea"; "fatigue"]).
  intros se. rewrite elem_of_union, !elem_of_singleton, !elem_of_cons.
  rewrite elem_of_nil. tauto.
Defined.

Lemma index_first (all : list string) (i : nat) (e : string) :
  all !! i = Some e → (index e all = Ok i ↔ e ∉ take i all).
Proof.
  intros Hie. rewrite index_ok. split.
  - intros [_ Hfirst] (j & Hj)%list_elem_of_lookup.
    pose proof (lookup_lt_Some _ _ _ Hj) as Hlt. rewrite length_take in Hlt.
    rewrite lookup_take_lt in Hj by lia. apply (Hfirst j); [lia | done].
  - intros Hnot. split; [done|]. intros j Hj Hje. apply Hnot.
    apply list_elem_of_lookup. exists j. by rewrite lookup_take_lt.
Qed.

Lemma ones_app (l1 l2 : list Q) : ones (l1 ++ l2) = ones l1 + ones l2.
Proof. unfold ones. by rewrite filter_app, length_app. Qed.

(** Counting the slots set to 1 counts the distinct vocabulary labels of the
    marked set. *)
Lemma ones_first_occurrences (U : gset string) (all : list string)
    (fv : list Q) :
  length fv = length all →
  (∀ i e, all !! i = Some e →
     fv !! i = Some (if decide (e ∈ U ∧ e ∉ take i all) then 1%Q else 0%Q)) →
  ones fv = size (U ∩ list_to_set all).
Proof.
  revert fv. induction all as [|e all IH] using rev_ind; intros fv Hlen Hslots.
  - destruct fv; [|done]. simpl.
    assert (U ∩ (∅ : gset string) = ∅) as -> by set_solver.
    by rewrite size_empty.
  - destruct fv as [|x fv _] using rev_ind.
    { rewrite length_app in Hlen. simpl in Hlen. lia. }
    rewrite !length_app in Hlen. simpl in Hlen.
    assert (length fv = length all) as Hlen' by lia.
    rewrite ones_app, (IH fv Hlen').
    + pose proof (Hslots (length all) e) as Hlast.
      rewrite lookup_app_r, Nat.sub_diag in Hlast by lia.
      specialize (Hlast eq_refl).
      rewrite lookup_app_r, Hlen', Nat.sub_diag in Hlast by lia.
      rewrite take_app_length in Hlast. injection Hlast as ->.
      rewrite list_to_set_app_L.
      case_decide as Hd.
      * destruct Hd as [HeU Hefresh].
        assert (U ∩ (list_to_set all ∪ list_to_set [e])
                = (U ∩ list_to_set all) ∪ ({[e]} : gset string)) as ->
          by set_solver.
        pose proof (size_union (U ∩ list_to_set all) ({[e]} : gset string))
          as ->.
        -- pose proof (size_singleton (C := gset string) e) as ->.
           unfold ones at 1. rewrite filter_cons_True by reflexivity. done.
        -- apply disjoint_singleton_r. rewrite elem_of_intersection.
           rewrite elem_of_list_to_set. tauto.
      * assert (U ∩ (list_to_set all ∪ list_to_set [e])
                = (U ∩ list_to_set all : gset string)) as ->.
        { apply set_eq. intros y.
          rewrite !elem_of_intersection, !elem_of_union.
          rewrite !elem_of_list_to_set, list_elem_of_singleton.
          destruct (decide (y = e)) as [->|]; destruct (decide (e ∈ all));
            tauto. }
        unfold ones at 1. rewrite filter_cons_False by discriminate.
        simpl. lia.
    + intros i e' Hie'.
      pose proof (lookup_lt_Some _ _ _ Hie') as Hlt.
      specialize (Hslots i e').
      rewrite lookup_app_l in Hslots by done.
      specialize (Hslots Hie').
      rewrite lookup_app_l in Hslots by lia.
      rewrite take_app_le in Hslots by lia. done.
Qed.

(** X4: for every vocabulary, every slot of the vector holds 0 or 1, and the
    number of slots holding 1 is the number of distinct vocabulary labels in
    the union of the two sets. *)
Theorem feature_vector_ones (A B : gset string) (vocabulary : list string) :
  ∃ fv, create_feature_vector A B vocabulary = Ok fv ∧
    Forall (λ q, q = 0%Q ∨ q = 1%Q) fv ∧
    ones fv = size ((A ∪ B) ∩ list_to_set vocabulary).
Proof.
  destruct (create_feature_vector_spec A B vocabulary)
    as (fv & Hfv & Hlen & Hslots).
  exists fv. split; [done|]. split.
  - apply Forall_lookup. intros i q Hq.
    pose proof (lookup_lt_Some _ _ _ Hq) as Hlt. rewrite Hlen in Hlt.
    destruct (lookup_lt_is_Some_2 vocabulary i Hlt) as [e Hie].
    rewrite (Hslots i e Hie) in Hq. injection Hq as <-.
    case_decide; [by right | by left].
  - apply ones_first_occurrences; [done|].
    intros i e Hie. rewrite (Hslots i e Hie). f_equal.
    pose proof (index_first vocabulary i e Hie).
    repeat case_decide; tauto.
Qed.

(** X5: in the ranking run the vocabulary of line 55 covers every profile, so
    the vector of two looked-up drugs flags exactly the labels of their
    union: a slot holds 1 if its label is in the union and 0 otherwise, and
    the number of slots holding 1 is the size of the union. *)
Theorem ranking_vector_covers_profiles
    (side_effects_df : list side_effect_row)
    (drug_names_df : list drug_name_row)
    (drug1 drug2 : string) (ses1 ses2 : list string) :
  get_drug_side_effects drug1 side_effects_df drug_names_df = Ok ses1 →
  get_drug_side_effects drug2 side_effects_df drug_names_df = Ok ses2 →
  let A : gset string := list_to_set ses1 in
  let B : gset string := list_to_set ses2 in
  ∃ fv,
    create_feature_vector A B (all_side_effects side_effects_df) = Ok fv ∧
    (∀ i e, all_side_effects side_effects_df !! i = Some e →
       fv !! i = Some (if decide (e ∈ A ∪ B) then 1%Q else 0%Q)) ∧
    ones fv = size (A ∪ B).
Proof.
  intros H1 H2 A B.
  destruct (create_feature_vector_spec A B (all_side_effects side_effects_df))
    as (fv & Hfv & Hlen & Hslots).
  exists fv. split; [done|]. split.
  - intros i e Hie. rewrite (Hslots i e Hie). f_equal.
    pose proof (index_NoDup _ i e (NoDup_unique _) Hie).
    repeat case_decide; tauto.
  - assert (A ∪ B = (A ∪ B) ∩ list_to_set (all_side_effects side_effects_df))
      as Hcover.
    { apply lookup_labels_subseteq in H1, H2. set_solver. }
    etrans; [|symmetry; exact (f_equal size Hcover)].
    apply ones_first_occurrences; [done|].
    intros i e Hie. rewrite (Hslots i e Hie). f_equal.
    pose proof (index_first _ i e Hie).
    repeat case_decide; tauto.
Qed.

Lemma ranking_vector_covers_profiles_witness :
  ∃ fv,
    create_feature_vector (list_to_set ["nausea"; "rash"])
      (list_to_set ["nausea"; "fatigue"; "nausea"])
      (all_side_effects demo_side_effects_df) = Ok fv ∧
    ones fv = 3.
Proof.
  destruct (ranking_vector_covers_profiles demo_side_effects_df
              demo_drug_names_df "DrugA" "DrugB" ["nausea"; "rash"]
              ["nausea"; "fatigue"; "nausea"])
    as (fv & Hfv & _ & Hones).
  - vm_compute; reflexivity.
  - vm_compute; reflexivity.
  - exists fv. split; [exact Hfv|]. rewrite Hones. vm_compute. reflexivity.
Defined.

(** ** When the ranking run returns, and how it fails *)

Lemma candidate_is_known (drug_names_df : list drug_name_row)
    (drug1 d : string) :
  d ∈ other_drugs drug_names_df drug1 → d ∈ drug_name <$> drug_names_df.
Proof. intros Hd. by apply elem_of_other_drugs in Hd as [Hd _]. Qed.

Lemma list_to_set_empty_nil (l : list string) :
  (list_to_set l : gset string) = ∅ ↔ l = [].
Proof.
  split; [|by intros ->].
  destruct l as [|x l]; [done|]. intros Hempty. exfalso.
  assert (x ∈ (list_to_set (x :: l) : gset string)) as Hx
    by (apply elem_of_list_to_set; left).
  rewrite Hempty in Hx. by apply elem_of_empty in Hx.
Qed.

Section RunFacts.
Context (model : booster) (label_encoder : label_encoder_t).
Context (side_effects_df : list side_effect_row).
Context (drug_names_df : list drug_name_row).

Local Abbreviation score_combination :=
  (score_combination model label_encoder side_effects_df drug_names_df).
Local Abbreviation score_all :=
  (score_all model label_encoder side_effects_df drug_names_df).
Local Abbreviation predict_drug_combinations :=
  (predict_drug_combinations model label_encoder side_effects_df drug_names_df).
Local Abbreviation side_effects_of d :=
  (get_drug_side_effects d side_effects_df drug_names_df).

(** The ways one pass through the loop body can raise. *)
Lemma score_combination_raise (drug1_ses : gset string) (drug2 : string)
    (e : exn) :
  drug2 ∈ drug_name <$> drug_names_df →
  score_combination drug1_ses drug2 = Raise e →
  ∃ ses2 fv,
    side_effects_of drug2 = Ok ses2 ∧
    create_feature_vector drug1_ses (list_to_set ses2)
      (all_side_effects side_effects_df) = Ok fv ∧
    ((e = ZeroDivisionError ∧ drug1_ses = ∅ ∧ ses2 = []) ∨
     predict model fv = Raise e ∨
     (e = TypeError ∧ predict model fv = Ok NonNumeric) ∨
     (e = ValueError ∧ predict model fv = Ok Unparsable) ∨
     (e = ZeroDivisionError ∧ classes_ label_encoder = [] ∧
      ∃ x, predict model fv = Ok (Numeric x))).
Proof.
  intros Hknown. unfold score_combination.
  destruct (get_drug_side_effects_cases drug2 side_effects_df drug_names_df)
    as [[Hnot _]|(row & _ & _ & Hget)]; [done|].
  rewrite Hget. simpl. set (ses2 := side_effect_name <$> _).
  destruct (create_feature_vector_spec drug1_ses (list_to_set ses2)
              (all_side_effects side_effects_df)) as (fv & Hfv & _).
  intros Hraise. exists ses2, fv. split; [done|]. split; [done|].
  unfold overlap_risk, int_truediv in Hraise.
  case_bool_decide as Hzero; simpl in Hraise.
  - left. injection Hraise as <-. split; [done|].
    assert (¬ (drug1_ses ≠ ∅ ∨ (list_to_set ses2 : gset string) ≠ ∅)) as Hboth
      by (rewrite <- size_sum_nonzero; lia).
    split.
    + destruct (decide (drug1_ses = ∅)); tauto.
    + apply list_to_set_empty_nil.
      destruct (decide ((list_to_set ses2 : gset string) = ∅)); tauto.
  - right. rewrite Hfv in Hraise. simpl in Hraise.
    destruct (predict model fv) as [[x| |]|e'] eqn:Hp; simpl in Hraise.
    + right. right. right. unfold float_truediv in Hraise.
      case_bool_decide as Hn; simpl in Hraise; [|done].
      injection Hraise as <-. split; [done|].
      split; [by apply length_zero_iff_nil | by exists x].
    + right. left. by injection Hraise as <-.
    + right. right. left. by injection Hraise as <-.
    + left. by injection Hraise as <-.
Qed.


Lemma score_all_is_ok (drug1_ses : gset string) (drugs : list string)
    (acc : list combination) :
  Forall (λ d, is_ok (score_combination drug1_ses d)) drugs →
  ∃ cs, score_all drug1_ses drugs acc = Ok cs ∧
    length cs = length acc + length drugs.
Proof.
  intros Hall. revert acc.
  induction Hall as [|d drugs [c Hc] _ IH]; intros acc; simpl.
  - exists acc. split; [done | lia].
  - rewrite Hc. simpl. destruct (IH (acc ++ [c])) as (cs & -> & Hlen).
    exists cs. split; [done|]. rewrite length_app in Hlen. simpl in Hlen. lia.
Qed.

(** X6: a returned ranking has exactly one record per known drug other than
    the anchor, also when the drug table lists a name several times. *)
Theorem ranking_one_record_per_candidate (drug1 : string)
    (rs : list combination) :
  predict_drug_combinations drug1 = Ok rs →
  NoDup (drug <$> rs) ∧
  length rs = length (other_drugs drug_names_df drug1) ∧
  ∀ d, d ∈ drug_name <$> drug_names_df → d ≠ drug1 →
    ∃ r, r ∈ rs ∧ drug r = d.
Proof.
  intros Hrun. apply predict_drug_combinations_drugs in Hrun.
  split; [|split].
  - rewrite Hrun. apply NoDup_other_drugs.
  - by rewrite <- Hrun, length_fmap.
  - intros d Hd Hne.
    assert (d ∈ drug <$> rs) as Hin
      by (rewrite Hrun; by apply elem_of_other_drugs).
    apply list_elem_of_fmap in Hin as (r & -> & Hr). by exists r.
Qed.

(** X7: each record of a returned ranking carries the intersection of the
    anchor's and its candidate's side-effect sets, and its overlap risk is 0
    exactly when that intersection is empty. *)
Theorem common_side_effects_risk (drug1 : string) (rs : list combination)
    (r : combination) :
  predict_drug_combinations drug1 = Ok rs →
  r ∈ rs →
  ∃ ses1 ses2,
    side_effects_of drug1 = Ok ses1 ∧
    side_effects_of (drug r) = Ok ses2 ∧
    common_side_effects r = list_to_set ses1 ∩ list_to_set ses2 ∧
    ((risk_score r == 0)%Q ↔ common_side_effects r = ∅).
Proof.
  intros Hrun Hr.
  destruct (predict_drug_combinations_elem _ _ _ _ _ _ _ Hrun Hr)
    as (ses1 & Hses1 & _ & Hscore).
  apply score_combination_ok in Hscore
    as (ses2 & risk & fv & q & s & Hses2 & Hrisk & _ & _ & _ & ->).
  exists ses1, ses2. split; [done|]. split; [done|]. split; [done|]. simpl.
  apply overlap_risk_ok in Hrisk as [Hnz ->].
  set (C := list_to_set ses1 ∩ list_to_set ses2 : gset string).
  pose proof (size_empty_iff (C := gset string) C) as HC.
  unfold_leibniz. rewrite <- HC. clear HC.
  assert (0 < inject_Z (Z.of_nat (size (list_to_set ses1 : gset string)
                                  + size (list_to_set ses2 : gset string))))%Q
    as Hpos.
  { change 0%Q with (inject_Z 0). rewrite <- Zlt_Qlt. lia. }
  split.
  - intros Hzero. destruct (decide (size C = 0)) as [|Hne]; [done|].
    exfalso.
    assert (0 < inject_Z (Z.of_nat (size C)))%Q as Hc.
    { change 0%Q with (inject_Z 0). rewrite <- Zlt_Qlt. lia. }
    assert (0 < inject_Z (Z.of_nat (size C))
                / inject_Z (Z.of_nat (size (list_to_set ses1 : gset string)
                                      + size (list_to_set ses2 : gset string))))%Q
      as Hdiv.
    { apply Qlt_shift_div_l; [done|]. by rewrite Qmult_0_l. }
    lra.
  - intros ->. simpl. unfold Qdiv. by rewrite !Qmult_0_l.
Qed.

(** X8: for an anchor that no record of the drug table carries, the run
    raises [IndexError] before any candidate is scored, whatever the model. *)
Theorem unknown_anchor_raises (drug1 : string) :
  (drug1 ∉ drug_name <$> drug_names_df) →
  predict_drug_combinations drug1 = Raise IndexError.
Proof.
  intros Hunknown.
  unfold predict_drug_combinations.
  destruct (get_drug_side_effects_cases drug1 side_effects_df drug_names_df)
    as [[_ ->]|(row & Hrow & Hname & _)]; [done|].
  destruct Hunknown. apply list_elem_of_fmap. by exists row.
Qed.

Lemma predict_drug_combinations_is_ok (drug1 : string) (ses1 : list string) :
  side_effects_of drug1 = Ok ses1 →
  ses1 ≠ [] →
  (∀ fv, ∃ x, predict model fv = Ok (Numeric x)) →
  classes_ label_encoder ≠ [] →
  is_ok (predict_drug_combinations drug1).
Proof.
  intros Hses1 Hne Hmodel Hclasses.
  assert (Forall (λ d, is_ok (score_combination (list_to_set ses1) d))
            (other_drugs drug_names_df drug1)) as Hall.
  { apply Forall_forall. intros d Hd%candidate_is_known.
    destruct (score_combination (list_to_set ses1) d) as [c|e] eqn:Hscore;
      [by exists c|].
    exfalso.
    apply score_combination_raise in Hscore
      as (ses2 & fv & _ & _ & Hkind); [|done].
    destruct (Hmodel fv) as [q Hq]. rewrite Hq in Hkind.
    destruct Hkind as [(_ & Hempty & _)|[?|[[_ ?]|[[_ ?]|(_ & ? & _)]]]];
      try done.
    by apply list_to_set_empty_nil in Hempty. }
  destruct (score_all_is_ok (list_to_set ses1) _ [] Hall) as (cs & Hcs & _).
  exists (sorted combined_score cs).
  unfold predict_drug_combinations.
  rewrite Hses1. simpl. fold score_all. by rewrite Hcs.
Qed.

(** X9: if the anchor has at least one side effect, the model returns a
    float on every vector and the label encoder has at least one class,
    the run returns a ranking, with one record per candidate. *)
Theorem ranking_run_succeeds (drug1 : string) (ses1 : list string) :
  side_effects_of drug1 = Ok ses1 →
  ses1 ≠ [] →
  (∀ fv, ∃ x, predict model fv = Ok (Numeric x)) →
  classes_ label_encoder ≠ [] →
  ∃ rs, predict_drug_combinations drug1 = Ok rs ∧
    length rs = length (other_drugs drug_names_df drug1).
Proof.
  intros Hses1 Hne Hmodel Hclasses.
  destruct (predict_drug_combinations_is_ok drug1 ses1) as [rs Hrs]; try done.
  exists rs. split; [done|].
  apply predict_drug_combinations_drugs in Hrs.
  by rewrite <- Hrs, length_fmap.
Qed.

(** X10: when the anchor is the only name of the drug table, the run
    returns the empty ranking and the model is never consulted. *)
Theorem ranking_without_candidates (drug1 : string) :
  drug1 ∈ drug_name <$> drug_names_df →
  (∀ r, r ∈ drug_names_df → drug_name r = drug1) →
  predict_drug_combinations drug1 = Ok [].
Proof.
  intros Hknown Honly.
  unfold predict_drug_combinations.
  destruct (get_drug_side_effects_cases drug1 side_effects_df drug_names_df)
    as [[Hnot _]|(row & _ & _ & ->)]; [done|]. simpl.
  assert (other_drugs drug_names_df drug1 = []) as ->; [|done].
  destruct (other_drugs drug_names_df drug1) as [|d l] eqn:Hother; [done|].
  assert (d ∈ other_drugs drug_names_df drug1) as Hd by (rewrite Hother; left).
  apply elem_of_other_drugs in Hd as [Hd Hne].
  apply list_elem_of_fmap in Hd as (r & -> & Hr).
  by destruct Hne; apply Honly.
Qed.

(** X11: the exception of a failing run is the one of the first candidate, in
    enumeration order, whose pass through the loop body raises; the
    candidates after it are not scored. *)
Theorem ranking_first_failure (drug1 : string) (ses1 : list string)
    (pre post : list string) (d : string) (e : exn) :
  side_effects_of drug1 = Ok ses1 →
  other_drugs drug_names_df drug1 = pre ++ d :: post →
  Forall (λ d', is_ok (score_combination (list_to_set ses1) d')) pre →
  score_combination (list_to_set ses1) d = Raise e →
  predict_drug_combinations drug1 = Raise e.
Proof.
  intros Hses1 Hsplit Hpre Hd.
  unfold predict_drug_combinations.
  rewrite Hses1, Hsplit. simpl. fold score_all.
  by rewrite (score_all_first_raise _ _ _ _ _ _ _ _ _ _ Hpre Hd).
Qed.


End RunFacts.

Lemma demo_run :
  predict_drug_combinations demo_model demo_label_encoder
    demo_side_effects_df demo_drug_names_df "DrugA" = Ok demo_ranking.
Proof. vm_compute. reflexivity. Defined.

Lemma demo_record_B_in_ranking : demo_record_B ∈ demo_ranking.
Proof. apply list_elem_of_lookup. exists 2. vm_compute. reflexivity. Defined.

Lemma ranking_one_record_per_candidate_witness :
  NoDup (drug <$> demo_ranking) ∧ length demo_ranking = 4.
Proof.
  destruct (ranking_one_record_per_candidate _ _ _ _ _ _ demo_run)
    as (Hnd & Hlen & _).
  split; [exact Hnd|]. rewrite Hlen. vm_compute. reflexivity.
Defined.

Lemma common_side_effects_risk_witness :
  ∃ ses1 ses2,
    get_drug_side_effects "DrugA" demo_side_effects_df demo_drug_names_df
      = Ok ses1 ∧
    get_drug_side_effects (drug demo_record_B) demo_side_effects_df
      demo_drug_names_df = Ok ses2 ∧
    common_side_effects demo_record_B = list_to_set ses1 ∩ list_to_set ses2 ∧
    ((risk_score demo_record_B == 0)%Q ↔ common_side_effects demo_record_B = ∅).
Proof.
  exact (common_side_effects_risk _ _ _ _ _ _ _ demo_run
           demo_record_B_in_ranking).
Defined.

Lemma unknown_anchor_raises_witness :
  predict_drug_combinations failing_model demo_label_encoder
    demo_side_effects_df demo_drug_names_df "Nonexistent" = Raise IndexError.
Proof.
  apply unknown_anchor_raises.
  apply (bool_decide_unpack _). vm_compute. exact I.
Defined.

Lemma ranking_run_succeeds_witness :
  ∃ rs, predict_drug_combinations demo_model demo_label_encoder
          demo_side_effects_df demo_drug_names_df "DrugA" = Ok rs ∧
        length rs = 4.
Proof.
  destruct (ranking_run_succeeds demo_model demo_label_encoder
              demo_side_effects_df demo_drug_names_df "DrugA"
              ["nausea"; "rash"]) as (rs & Hrs & Hlen).
  - vm_compute. reflexivity.
  - discriminate.
  - intros fv. exists (Finite 1). reflexivity.
  - discriminate.
  - exists rs. split; [exact Hrs|]. rewrite Hlen. vm_compute. reflexivity.
Defined.

Lemma ranking_without_candidates_witness :
  predict_drug_combinations failing_model demo_label_encoder
    demo_side_effects_df
    [ {| dn_drug_id := "CID2"; drug_name := "DrugB" |};
      {| dn_drug_id := "CID6"; drug_name := "DrugB" |} ] "DrugB" = Ok [].
Proof.
  apply ranking_without_candidates.
  - apply (bool_decide_unpack _). vm_compute. exact I.
  - intros r Hr.
    repeat (apply elem_of_cons in Hr as [->|Hr]; [reflexivity|]).
    by apply elem_of_nil in Hr.
Defined.

Lemma ranking_first_failure_witness :
  predict_drug_combinations non_numeric_model demo_label_encoder
    demo_side_effects_df demo_drug_names_df "DrugD" = Raise TypeError.
Proof.
  apply (ranking_first_failure non_numeric_model demo_label_encoder
           demo_side_effects_df demo_drug_names_df "DrugD"
           ["rash"; "nausea"] ["DrugA"] ["DrugC"; "DrugE"] "DrugB").
  - vm_compute. reflexivity.
  - vm_compute. reflexivity.
  - constructor; [|constructor]. eexists. vm_compute. reflexivity.
  - vm_compute. reflexivity.
Defined.


(** ** The range of the scores *)

(** X13: if every numeric prediction of the model is a finite number
    between 0 and the number of classes, then in a returned ranking every
    severity score is a finite number between 0 and 100 and every composite
    score a finite number between 0 and 70. *)
Theorem scores_bounded (model : booster) (label_encoder : label_encoder_t)
    (side_effects_df : list side_effect_row)
    (drug_names_df : list drug_name_row)
    (drug1 : string) (rs : list combination) (r : combination) :
  (∀ fv x, predict model fv = Ok (Numeric x) →
     ∃ q, x = Finite q ∧
       (0 <= q <= inject_Z (Z.of_nat (length (classes_ label_encoder))))%Q) →
  predict_drug_combinations model label_encoder side_effects_df drug_names_df
    drug1 = Ok rs →
  r ∈ rs →
  ∃ severity combined,
    severity_score r = Finite severity ∧
    combined_score r = Finite combined ∧
    (0 <= severity <= 100)%Q ∧ (0 <= combined <= 70)%Q.
Proof.
  intros Hmodel Hrun Hr.
  destruct (predict_drug_combinations_elem _ _ _ _ _ _ _ Hrun Hr)
    as (ses1 & _ & _ & Hscore).
  apply score_combination_ok in Hscore
    as (ses2 & risk & fv & x & s & _ & Hrisk & _ & Hx & Hs & ->). simpl.
  apply overlap_risk_range in Hrisk.
  apply Hmodel in Hx as (q & -> & Hq0 & Hqn).
  unfold float_truediv in Hs. case_bool_decide as Hn; [done|].
  injection Hs as <-. simpl.
  set (n := inject_Z (Z.of_nat (length (classes_ label_encoder)))) in *.
  assert (0 < n)%Q as Hpos.
  { unfold n. change 0%Q with (inject_Z 0). rewrite <- Zlt_Qlt. lia. }
  assert (0 <= q / n)%Q as Hlo
    by (apply Qle_shift_div_l; [done | by rewrite Qmult_0_l]).
  assert (q / n <= 1)%Q as Hhi
    by (apply Qle_shift_div_r; [done | by rewrite Qmult_1_l]).
  eexists _, _. split; [reflexivity|]. split; [reflexivity|].
  split; split; lra.
Qed.

Lemma scores_bounded_witness :
  ∃ severity combined,
    severity_score demo_record_B = Finite severity ∧
    combined_score demo_record_B = Finite combined ∧
    (0 <= severity <= 100)%Q ∧ (0 <= combined <= 70)%Q.
Proof.
  apply (scores_bounded demo_model demo_label_encoder demo_side_effects_df
           demo_drug_names_df "DrugA" demo_ranking demo_record_B).
  - intros fv x [= <-]. exists 1%Q. split; [reflexivity|]. split; discriminate.
  - exact demo_run.
  - exact demo_record_B_in_ranking.
Defined.

(** ** What the page displays *)

Lemma demo_ranking_not_NaN : Forall (λ r, combined_score r ≠ NaN) demo_ranking.
Proof.
  unfold demo_ranking. repeat (constructor; [discriminate|]). constructor.
Defined.

(** X14: the page shows at most two cards, for the first two records of the
    ranking; when no composite score is [nan], no record left out has a
    lower composite score than a displayed one. *)
Theorem top_cards_are_safest (model : booster)
    (label_encoder : label_encoder_t)
    (side_effects_df : list side_effect_row)
    (drug_names_df : list drug_name_row)
    (drug1 : string) (rs : list combination) :
  predict_drug_combinations model label_encoder side_effects_df drug_names_df
    drug1 = Ok rs →
  length (top_cards rs) = 2 `min` length (other_drugs drug_names_df drug1) ∧
  card_drug <$> top_cards rs = drug <$> take 2 rs ∧
  (Forall (λ r, combined_score r ≠ NaN) rs →
   ∀ a b, a ∈ take 2 rs → b ∈ drop 2 rs →
     fle (combined_score a) (combined_score b)).
Proof.
  intros Hrun. split; [|split].
  - unfold top_cards. rewrite length_imap, length_take.
    apply predict_drug_combinations_drugs in Hrun.
    by rewrite <- Hrun, length_fmap.
  - unfold top_cards. apply list_eq. intros i.
    rewrite list_lookup_fmap, list_lookup_imap, list_lookup_fmap.
    by destruct (take 2 rs !! i).
  - apply predict_drug_combinations_ok in Hrun as (ses1 & cs & _ & _ & ->).
    intros Hnan. rewrite sorted_Permutation in Hnan.
    pose proof (sorted_StronglySorted combined_score cs Hnan) as Hsorted.
    rewrite <- (take_drop 2 (sorted combined_score cs)) in Hsorted.
    intros a b Ha Hb.
    exact (StronglySorted_app_1_elem_of _ _ _ _ _ Hsorted Ha Hb).
Qed.

Lemma top_cards_are_safest_witness :
  length (top_cards demo_ranking) = 2 ∧
  card_drug <$> top_cards demo_ranking = ["DrugC"; "DrugE"] ∧
  fle (combined_score demo_record_C) (combined_score demo_record_B).
Proof.
  destruct (top_cards_are_safest _ _ _ _ _ _ demo_run)
    as (Hlen & Hdrugs & Hsafest).
  split; [|split].
  - rewrite Hlen. vm_compute. reflexivity.
  - rewrite Hdrugs. vm_compute. reflexivity.
  - apply (Hsafest demo_ranking_not_NaN).
    + apply list_elem_of_lookup. exists 0. vm_compute. reflexivity.
    + apply list_elem_of_lookup. exists 0. vm_compute. reflexivity.
Defined.

(** With a [nan] score this fails: on the second data set the page shows
    [DrugB], with score 35, and [DrugN], with score [nan], and leaves out
    [DrugR], whose score is 20. *)
Example top_cards_with_nan :
  card_drug <$> top_cards nan_ranking = ["DrugB"; "DrugN"] ∧
  card_color <$> top_cards nan_ranking = ["orange"; "red"] ∧
  drug <$> drop 2 nan_ranking = ["DrugR"].
Proof. repeat split; vm_compute; reflexivity. Qed.

(** ** Sorting a sorted list *)

(** X16: [sorted] returns a list that is already in ascending order of the
    key unchanged; in particular, sorting a ranking again does not move any
    record. *)
Theorem sorted_fixes_sorted {A : Type} (key : A → pyfloat) (l : list A) :
  StronglySorted (key_le key) l → sorted key l = l.
Proof.
  induction 1 as [|x l Hs IH Hall]; simpl; [done|].
  rewrite IH. destruct l as [|y l]; [done|]. simpl.
  apply Forall_cons in Hall as [Hxy _].
  destruct (float_lt (key y) (key x)) eqn:Hlt; [|done].
  exfalso. by apply (float_lt_not_fle _ _ Hlt).
Qed.

Lemma sorted_fixes_sorted_witness :
  sorted combined_score demo_ranking = demo_ranking.
Proof.
  apply sorted_fixes_sorted.
  destruct (predict_drug_combinations_ok _ _ _ _ _ _ demo_run)
    as (ses1 & cs & _ & _ & Heq).
  pose proof demo_ranking_not_NaN as Hnan.
  rewrite Heq in Hnan |- *. rewrite sorted_Permutation in Hnan.
  by apply sorted_StronglySorted.
Defined.

(** ** The drugs the page offers *)

Lemma elem_of_merged_df (side_effects_df : list side_effect_row)
    (drug_names_df : list drug_name_row)
    (disease_data_df : list disease_row) (r : merged_row) :
  r ∈ merged_df side_effects_df drug_names_df disease_data_df ↔
  m_side_effect r ∈ side_effects_df ∧
  m_drug_name r ∈ drug_names_df ∧
  dn_drug_id (m_drug_name r) = se_drug_id (m_side_effect r) ∧
  m_disease r ∈ disease_data_df ∧
  dd_drug (m_disease r) = drug_name (m_drug_name r).
Proof.
  unfold merged_df. split.
  - intros (se & Hr & Hse)%list_elem_of_bind.
    apply list_elem_of_bind in Hr as (dn & Hr & Hdn).
    apply list_elem_of_bind in Hr as (dd & Hr & Hdd).
    apply list_elem_of_singleton in Hr as ->. simpl.
    apply list_elem_of_filter in Hdn as [Hid Hdn].
    apply list_elem_of_filter in Hdd as [Hname Hdd]. done.
  - destruct r as [se dn dd]. simpl. intros (Hse & Hdn & Hid & Hdd & Hname).
    apply list_elem_of_bind. exists se. split; [|done].
    apply list_elem_of_bind. exists dn.
    split; [|by apply list_elem_of_filter].
    apply list_elem_of_bind. exists dd.
    split; [|by apply list_elem_of_filter].
    by apply list_elem_of_singleton.
Qed.

(** Where an offered drug comes from. *)
Lemma elem_of_filtered_drugs (side_effects_df : list side_effect_row)
    (drug_names_df : list drug_name_row)
    (disease_data_df : list disease_row) (disease1 drug1 : string) :
  drug1 ∈ filtered_drugs side_effects_df drug_names_df disease_data_df
            disease1 ↔
  ∃ se dn dd,
    se ∈ side_effects_df ∧ dn ∈ drug_names_df ∧ dd ∈ disease_data_df ∧
    dn_drug_id dn = se_drug_id se ∧ drug_name dn = drug1 ∧
    dd_drug dd = drug1 ∧ disease dd = disease1.
Proof.
  unfold filtered_drugs. rewrite elem_of_unique, list_elem_of_fmap. split.
  - intros (r & -> & Hr). apply list_elem_of_filter in Hr as [Hdis Hr].
    apply elem_of_merged_df in Hr as (Hse & Hdn & Hid & Hdd & Hname).
    by exists (m_side_effect r), (m_drug_name r), (m_disease r).
  - intros (se & dn & dd & Hse & Hdn & Hdd & Hid & <- & Hname & Hdis).
    exists {| m_side_effect := se; m_drug_name := dn; m_disease := dd |}.
    split; [done|]. apply list_elem_of_filter. split; [done|].
    by apply elem_of_merged_df.
Qed.

(** With one identifier per name, an offered drug has a side effect. *)
Lemma offered_drug_profile (side_effects_df : list side_effect_row)
    (drug_names_df : list drug_name_row)
    (disease_data_df : list disease_row) (disease1 drug1 : string) :
  drug1 ∈ filtered_drugs side_effects_df drug_names_df disease_data_df
            disease1 →
  (∀ r r', r ∈ drug_names_df → r' ∈ drug_names_df →
     drug_name r = drug_name r' → dn_drug_id r = dn_drug_id r') →
  ∃ ses1, get_drug_side_effects drug1 side_effects_df drug_names_df = Ok ses1 ∧
    ses1 ≠ [].
Proof.
  intros (se & dn & dd & Hse & Hdn & _ & Hid & Hname & _)%elem_of_filtered_drugs
    Hsingle.
  destruct (get_drug_side_effects_cases drug1 side_effects_df drug_names_df)
    as [[Hnot _]|(row & Hrow & Hrowname & ->)].
  { destruct Hnot. apply list_elem_of_fmap. by exists dn. }
  eexists. split; [done|].
  assert (se ∈ filter (λ r, se_drug_id r = dn_drug_id row) side_effects_df)
    as Hin.
  { apply list_elem_of_filter. split; [|done].
    rewrite <- Hid. apply Hsingle; [done | done | congruence]. }
  intros Hnil. apply fmap_nil_inv in Hnil. rewrite Hnil in Hin.
  by apply elem_of_nil in Hin.
Qed.

(** X17: every drug the page offers for a disease is prescribed for that
    disease, is carried by the drug table and has a side-effect row under
    one of its identifiers, so looking it up never raises. *)
Theorem offered_drug_is_known (side_effects_df : list side_effect_row)
    (drug_names_df : list drug_name_row)
    (disease_data_df : list disease_row) (disease1 drug1 : string) :
  drug1 ∈ filtered_drugs side_effects_df drug_names_df disease_data_df
            disease1 →
  (∃ dd, dd ∈ disease_data_df ∧ disease dd = disease1 ∧ dd_drug dd = drug1) ∧
  (∃ se dn, se ∈ side_effects_df ∧ dn ∈ drug_names_df ∧
     drug_name dn = drug1 ∧ se_drug_id se = dn_drug_id dn) ∧
  is_ok (get_drug_side_effects drug1 side_effects_df drug_names_df).
Proof.
  intros (se & dn & dd & Hse & Hdn & Hdd & Hid & Hname & Hdrug & Hdis)
           %elem_of_filtered_drugs.
  split; [by exists dd|]. split; [by exists se, dn|].
  destruct (get_drug_side_effects_cases drug1 side_effects_df drug_names_df)
    as [[Hnot _]|(row & _ & _ & ->)]; [|by eexists].
  destruct Hnot. apply list_elem_of_fmap. by exists dn.
Qed.

Lemma offered_drug_is_known_witness :
  filtered_drugs demo_side_effects_df demo_drug_names_df
    demo_disease_data_df "migraine" = ["DrugA"] ∧
  is_ok (get_drug_side_effects "DrugA" demo_side_effects_df
           demo_drug_names_df).
Proof.
  split; [vm_compute; reflexivity|].
  apply (offered_drug_is_known demo_side_effects_df demo_drug_names_df
           demo_disease_data_df "migraine" "DrugA").
  apply (bool_decide_unpack _). vm_compute. exact I.
Defined.

(** X18: when the drug table gives every name a single identifier, the
    model returns a float on every vector and the label encoder has a
    class, ranking the candidates of a drug the page offers returns: no
    lookup fails and line 71 never divides by zero. *)
Theorem offered_drug_ranking_succeeds (model : booster)
    (label_encoder : label_encoder_t)
    (side_effects_df : list side_effect_row)
    (drug_names_df : list drug_name_row)
    (disease_data_df : list disease_row) (disease1 drug1 : string) :
  drug1 ∈ filtered_drugs side_effects_df drug_names_df disease_data_df
            disease1 →
  (∀ r r', r ∈ drug_names_df → r' ∈ drug_names_df →
     drug_name r = drug_name r' → dn_drug_id r = dn_drug_id r') →
  (∀ fv, ∃ x, predict model fv = Ok (Numeric x)) →
  classes_ label_encoder ≠ [] →
  ∃ ses1 rs,
    get_drug_side_effects drug1 side_effects_df drug_names_df = Ok ses1 ∧
    ses1 ≠ [] ∧
    predict_drug_combinations model label_encoder side_effects_df
      drug_names_df drug1 = Ok rs.
Proof.
  intros Hoffered Hsingle Hmodel Hclasses.
  destruct (offered_drug_profile _ _ _ _ _ Hoffered Hsingle)
    as (ses1 & Hses1 & Hne).
  destruct (predict_drug_combinations_is_ok model label_encoder
              side_effects_df drug_names_df drug1 ses1) as [rs Hrs]; try done.
  by exists ses1, rs.
Qed.

Lemma offered_drug_ranking_succeeds_witness :
  ∃ ses1 rs,
    get_drug_side_effects "DrugD" demo_side_effects_df demo_single_names_df
      = Ok ses1 ∧
    ses1 ≠ [] ∧
    predict_drug_combinations demo_model demo_label_encoder
      demo_side_effects_df demo_single_names_df "DrugD" = Ok rs.
Proof.
  apply (offered_drug_ranking_succeeds demo_model demo_label_encoder
           demo_side_effects_df demo_single_names_df demo_disease_data_df
           "eczema" "DrugD").
  - apply (bool_decide_unpack _). vm_compute. exact I.
  - assert (Forall (λ r, Forall (λ r', drug_name r = drug_name r' →
                                       dn_drug_id r = dn_drug_id r')
                           demo_single_names_df) demo_single_names_df) as Hall
      by (apply (bool_decide_unpack _); vm_compute; exact I).
    intros r r' Hr Hr'.
    rewrite Forall_forall in Hall. specialize (Hall r Hr).
    rewrite Forall_forall in Hall. exact (Hall r' Hr').
  - intros fv. exists (Finite 1). reflexivity.
  - discriminate.
Defined.

(** ** Symmetry of the scores *)

Lemma overlap_risk_comm (A B : gset string) :
  overlap_risk A B = overlap_risk B A.
Proof.
  unfold overlap_risk.
  by rewrite (comm_L (∩) A B), (Nat.add_comm (size A) (size B)).
Qed.

Lemma create_feature_vector_comm (A B : gset string) (vocabulary : list string) :
  create_feature_vector A B vocabulary = create_feature_vector B A vocabulary.
Proof. unfold create_feature_vector. by rewrite (comm_L (∪) A B). Qed.

(** X19: the scores do not depend on which of two drugs is the anchor: the
    record of [drug2] in the ranking of [drug1] and the record of [drug1] in
    the ranking of [drug2] have the same overlap risk, severity score,
    composite score and common side effects. *)
Theorem scores_symmetric (model : booster) (label_encoder : label_encoder_t)
    (side_effects_df : list side_effect_row)
    (drug_names_df : list drug_name_row)
    (drug1 drug2 : string) (rs1 rs2 : list combination)
    (r1 r2 : combination) :
  predict_drug_combinations model label_encoder side_effects_df drug_names_df
    drug1 = Ok rs1 →
  predict_drug_combinations model label_encoder side_effects_df drug_names_df
    drug2 = Ok rs2 →
  r1 ∈ rs1 → drug r1 = drug2 →
  r2 ∈ rs2 → drug r2 = drug1 →
  risk_score r1 = risk_score r2 ∧
  severity_score r1 = severity_score r2 ∧
  combined_score r1 = combined_score r2 ∧
  common_side_effects r1 = common_side_effects r2.
Proof.
  intros Hrun1 Hrun2 Hr1 Hd1 Hr2 Hd2.
  destruct (predict_drug_combinations_elem _ _ _ _ _ _ _ Hrun1 Hr1)
    as (ses1 & Hses1 & _ & Hscore1).
  destruct (predict_drug_combinations_elem _ _ _ _ _ _ _ Hrun2 Hr2)
    as (ses2 & Hses2 & _ & Hscore2).
  rewrite Hd1 in Hscore1. rewrite Hd2 in Hscore2.
  apply score_combination_ok in Hscore1
    as (ses2' & risk1 & fv1 & q1 & s1 & Hget2 & Hrisk1 & Hfv1 & Hq1 & Hs1 & ->).
  apply score_combination_ok in Hscore2
    as (ses1' & risk2 & fv2 & q2 & s2 & Hget1 & Hrisk2 & Hfv2 & Hq2 & Hs2 & ->).
  assert (ses2' = ses2) as -> by congruence.
  assert (ses1' = ses1) as -> by congruence.
  rewrite overlap_risk_comm in Hrisk2.
  rewrite create_feature_vector_comm in Hfv2.
  assert (risk2 = risk1) as -> by congruence.
  assert (fv2 = fv1) as -> by congruence.
  assert (q2 = q1) as -> by congruence.
  assert (s2 = s1) as -> by congruence.
  simpl. repeat split. apply (comm_L (∩)).
Qed.

Lemma scores_symmetric_witness :
  ∃ rs2 r2,
    predict_drug_combinations demo_model demo_label_encoder
      demo_side_effects_df demo_drug_names_df "DrugB" = Ok rs2 ∧
    r2 ∈ rs2 ∧ drug r2 = "DrugA" ∧
    risk_score demo_record_B = risk_score r2 ∧
    combined_score demo_record_B = combined_score r2.
Proof.
  destruct (predict_drug_combinations demo_model demo_label_encoder
              demo_side_effects_df demo_drug_names_df "DrugB")
    as [rs2|e] eqn:Hrun2; [|vm_compute in Hrun2; discriminate Hrun2].
  destruct (rs2 !! 2) as [r2|] eqn:Hr2;
    [|revert Hr2; revert Hrun2; vm_compute; intros [= <-]; discriminate].
  assert (r2 ∈ rs2) as Hin by (by eapply list_elem_of_lookup_2).
  assert (drug r2 = "DrugA") as Hdrug.
  { revert Hr2. revert Hrun2. vm_compute. intros [= <-] [= <-]. reflexivity. }
  exists rs2, r2. split; [reflexivity|]. split; [exact Hin|].
  split; [exact Hdrug|].
  destruct (scores_symmetric _ _ _ _ _ _ _ _ _ _ demo_run Hrun2
              demo_record_B_in_ranking eq_refl Hin Hdrug)
    as (Hrisk & _ & Hcombined & _).
  split; [exact Hrisk | exact Hcombined].
Defined.

(** ** Growing the side-effect table *)

Lemma unique_from_seen_ext (seen1 seen2 l : list string) :
  (∀ x, x ∈ seen1 ↔ x ∈ seen2) →
  unique_from seen1 l = unique_from seen2 l.
Proof.
  revert seen1 seen2. induction l as [|y l IH]; intros seen1 seen2 Hsame;
    simpl; [done|].
  rewrite (bool_decide_ext _ _ (Hsame y)).
  case_bool_decide; [by apply IH|].
  f_equal. apply IH. intros x. rewrite !elem_of_cons, Hsame. done.
Qed.

Lemma unique_from_app (seen l l' : list string) :
  unique_from seen (l ++ l')
  = unique_from seen l ++ unique_from (reverse l ++ seen) l'.
Proof.
  revert seen. induction l as [|y l IH]; intros seen; simpl; [done|].
  case_bool_decide as Hy.
  - rewrite IH. f_equal. apply unique_from_seen_ext. intros x.
    rewrite reverse_cons, !elem_of_app, list_elem_of_singleton.
    split; [tauto|]. intros [[?| ->]|?]; tauto.
  - rewrite IH. simpl. do 2 f_equal. apply unique_from_seen_ext. intros x.
    rewrite reverse_cons, !elem_of_app, elem_of_cons, list_elem_of_singleton.
    tauto.
Qed.

Lemma vocabulary_prefix (side_effects_df more : list side_effect_row) :
  all_side_effects side_effects_df
    `prefix_of` all_side_effects (side_effects_df ++ more).
Proof.
  unfold all_side_effects, unique. rewrite fmap_app, unique_from_app.
  by eexists.
Qed.

(** X20: rows appended to the side-effect table only append labels to the
    vocabulary of line 55: the vocabulary of the old table is a prefix of the
    new one, so every known label keeps its slot. *)
Theorem vocabulary_grows_by_appending
    (side_effects_df more : list side_effect_row) :
  all_side_effects side_effects_df
    `prefix_of` all_side_effects (side_effects_df ++ more) ∧
  ∀ e i, index e (all_side_effects side_effects_df) = Ok i →
    index e (all_side_effects (side_effects_df ++ more)) = Ok i.
Proof.
  unfold all_side_effects, unique. rewrite fmap_app, unique_from_app.
  set (old := unique_from [] (side_effect_name <$> side_effects_df)).
  set (new := unique_from _ (side_effect_name <$> more)).
  split; [by exists new|].
  intros e i [Hie Hfirst]%index_ok. apply index_ok. split.
  - by apply lookup_app_l_Some.
  - intros j Hj Hje. apply (Hfirst j Hj).
    pose proof (lookup_lt_Some _ _ _ Hie) as Hlt.
    by rewrite lookup_app_l in Hje by lia.
Qed.

(** X21: after rows are appended to the side-effect table, the vector of
    two sets over the new vocabulary starts with their vector over the old
    one. *)
Theorem feature_vector_grows_by_appending
    (side_effects_df more : list side_effect_row) (A B : gset string) :
  ∃ fv fv',
    create_feature_vector A B (all_side_effects side_effects_df) = Ok fv ∧
    create_feature_vector A B (all_side_effects (side_effects_df ++ more))
      = Ok fv' ∧
    take (length fv) fv' = fv.
Proof.
  destruct (create_feature_vector_spec A B (all_side_effects side_effects_df))
    as (fv & Hfv & Hlen & Hslots).
  destruct (create_feature_vector_spec A B
              (all_side_effects (side_effects_df ++ more)))
    as (fv' & Hfv' & Hlen' & Hslots').
  exists fv, fv'. split; [done|]. split; [done|].
  destruct (vocabulary_prefix side_effects_df more) as [new Hnew].
  assert (length fv ≤ length fv') as Hle
    by (rewrite Hlen, Hlen', Hnew, length_app; lia).
  apply list_eq. intros i.
  destruct (decide (i < length fv)) as [Hi|Hi].
  - rewrite lookup_take_lt by done. rewrite Hlen in Hi.
    destruct (lookup_lt_is_Some_2 _ i Hi) as [e Hie].
    assert (all_side_effects (side_effects_df ++ more) !! i = Some e) as Hie'
      by (rewrite Hnew; by apply lookup_app_l_Some).
    rewrite (Hslots i e Hie), (Hslots' i e Hie'). f_equal.
    pose proof (index_first _ i e Hie) as H1.
    pose proof (index_first _ i e Hie') as H2.
    assert (take i (all_side_effects (side_effects_df ++ more))
            = take i (all_side_effects side_effects_df)) as Htake
      by (rewrite Hnew, take_app_le by lia; done).
    rewrite Htake in H2.
    repeat case_decide; tauto.
  - rewrite lookup_take_ge by lia. symmetry. apply lookup_ge_None. lia.
Qed.

Lemma vocabulary_grows_by_appending_witness :
  index "rash" (all_side_effects demo_side_effects_df) = Ok 1 ∧
  index "rash"
    (all_side_effects
       (demo_side_effects_df
        ++ [ {| se_drug_id := "CID5"; side_effect_name := "headache" |};
             {| se_drug_id := "CID5"; side_effect_name := "rash" |} ]))
  = Ok 1.
Proof.
  assert (index "rash" (all_side_effects demo_side_effects_df) = Ok 1) as Hidx
    by (vm_compute; reflexivity).
  split; [exact Hidx|].
  exact (proj2 (vocabulary_grows_by_appending demo_side_effects_df _) _ _ Hidx).
Defined.
